(** * Weather App: a shallow embedding of [src/App.tsx]

    The component keeps five pieces of React state (city, weather, error,
    loading, isCelsius) and has three functions: [getWeatherCode] (a table
    lookup), [convertTemp] (Celsius to Fahrenheit) and [getWeather] (two
    awaited HTTP requests inside try / catch / finally).

    Values are modelled as JavaScript has them at run time:
    - a string is a sequence of UTF-16 code units;
    - a number is an IEEE 754 binary64 value (Rocq's primitive [float]);
    - the parsed JSON bodies are untyped values ([JsVal]), and property
      access on [undefined] / [null] throws a [TypeError];
    - the asynchronous function is a computation that logs its effects
      (state setter calls, requests, console output) in order and ends
      normally, by [return], or by a thrown exception. *)

From Stdlib Require Import String Ascii ZArith NArith Bool Lia List.
From Stdlib Require Import Floats.PrimFloat Floats.FloatOps Floats.SpecFloat.
From Stdlib Require Import Uint63 DecimalString QArith Qpower Lqa.
Import ListNotations.

Set Implicit Arguments.
Set Warnings "-register-all".

(* ================================================================== *)
(** ** Strings: UTF-16 code units *)

Module JsString.

Definition jsstring := list N.

(** An ASCII literal of the program text as a JavaScript string. *)
Definition lit (s : string) : jsstring :=
  map N_of_ascii (list_ascii_of_string s).

Fixpoint eqb (a b : jsstring) : bool :=
  match a, b with
  | [], [] => true
  | x :: a', y :: b' => N.eqb x y && eqb a' b'
  | _, _ => false
  end.

(** ECMAScript WhiteSpace and LineTerminator code points, the set that
    [String.prototype.trim] strips. *)
Definition isWhiteSpace (c : N) : bool :=
  ((c =? 0x9) || (c =? 0xA) || (c =? 0xB) || (c =? 0xC) || (c =? 0xD)
   || (c =? 0x20) || (c =? 0xA0) || (c =? 0x1680)
   || ((0x2000 <=? c) && (c <=? 0x200A))
   || (c =? 0x2028) || (c =? 0x2029) || (c =? 0x202F) || (c =? 0x205F)
   || (c =? 0x3000) || (c =? 0xFEFF))%N.

Fixpoint trimStart (s : jsstring) : jsstring :=
  match s with
  | c :: rest => if isWhiteSpace c then trimStart rest else s
  | [] => []
  end.

Definition trimEnd (s : jsstring) : jsstring := rev (trimStart (rev s)).

(** [s.trim()] *)
Definition trim (s : jsstring) : jsstring := trimEnd (trimStart s).

(** The characters [encodeURIComponent] leaves alone:
    letters, digits and [- _ . ! ~ * ' ( )]. *)
Definition uriUnescaped (c : N) : bool :=
  (((0x41 <=? c) && (c <=? 0x5A)) || ((0x61 <=? c) && (c <=? 0x7A))
   || ((0x30 <=? c) && (c <=? 0x39))
   || (c =? 0x2D) || (c =? 0x5F) || (c =? 0x2E) || (c =? 0x21)
   || (c =? 0x7E) || (c =? 0x2A) || (c =? 0x27) || (c =? 0x28)
   || (c =? 0x29))%N.

Definition isLeadSurrogate (c : N) : bool := ((0xD800 <=? c) && (c <=? 0xDBFF))%N.
Definition isTrailSurrogate (c : N) : bool := ((0xDC00 <=? c) && (c <=? 0xDFFF))%N.

Definition hexDigit (n : N) : N := (if n <? 10 then 0x30 + n else 0x37 + n)%N.

(** One octet as [%XX], upper-case hexadecimal. *)
Definition percent (b : N) : jsstring :=
  [0x25%N; hexDigit (b / 16); hexDigit (b mod 16)].

Definition utf8 (cp : N) : list N :=
  (if cp <? 0x80 then [cp]
   else if cp <? 0x800 then [0xC0 + cp / 0x40; 0x80 + cp mod 0x40]
   else if cp <? 0x10000 then
     [0xE0 + cp / 0x1000; 0x80 + (cp / 0x40) mod 0x40; 0x80 + cp mod 0x40]
   else
     [0xF0 + cp / 0x40000; 0x80 + (cp / 0x1000) mod 0x40;
      0x80 + (cp / 0x40) mod 0x40; 0x80 + cp mod 0x40])%N.

Definition escape (cp : N) : jsstring := List.concat (map percent (utf8 cp)).

(** [encodeURIComponent(s)]; [None] is the [URIError] thrown on a lone
    surrogate. *)
Fixpoint encodeURIComponent (s : jsstring) : option jsstring :=
  match s with
  | [] => Some []
  | c :: rest =>
      if uriUnescaped c then option_map (cons c) (encodeURIComponent rest)
      else if isLeadSurrogate c then
        match rest with
        | d :: rest' =>
            if isTrailSurrogate d
            then option_map
                   (app (escape ((c - 0xD800) * 0x400 + (d - 0xDC00) + 0x10000)%N))
                   (encodeURIComponent rest')
            else None
        | [] => None
        end
      else if isTrailSurrogate c then None
      else option_map (app (escape c)) (encodeURIComponent rest)
  end.

(** Decimal digits of a natural number, the property key of an index. *)
Definition ofNat (n : nat) : jsstring :=
  lit (NilEmpty.string_of_uint (Nat.to_uint n)).

End JsString.
Import JsString.

(* ================================================================== *)
(** ** Numbers: binary64 *)

Module JsNumber.

Open Scope float_scope.

Definition ofNat (n : nat) : float := of_uint63 (Uint63.of_Z (Z.of_nat n)).

Definition isNaN (x : float) : bool := negb (x =? x).

(** The integer a finite number is equal to, if it is one.  A property
    key [k] written as an integer literal in an object literal is hit by
    [obj[x]] exactly for the numbers [x] with this integer value:
    [ToPropertyKey] prints such an [x] (both zeros as ["0"]) as the
    canonical digits of [k], and no other number prints as digits only. *)
Definition integerValue (x : float) : option Z :=
  match Prim2SF x with
  | S754_zero _ => Some 0%Z
  | S754_finite s m e =>
      let sm := if s then Z.neg m else Z.pos m in
      if (0 <=? e)%Z then Some (sm * 2 ^ e)%Z
      else if (Z.pos m mod 2 ^ (- e) =? 0)%Z then Some (sm / 2 ^ (- e))%Z
      else None
  | _ => None
  end.

(** The integer nearest to [(-1)^s * m * 2^e], ties towards +infinity:
    floor of the value plus one half. *)
Definition roundHalfUp (s : bool) (m : positive) (e : Z) : Z :=
  let sm := if s then Z.neg m else Z.pos m in
  if (0 <=? e)%Z then (sm * 2 ^ e)%Z
  else ((2 * sm + 2 ^ (- e)) / (2 * 2 ^ (- e)))%Z.

(** The Number [Math.round] returns: NaN, an infinity, the negative zero
    or an integer. *)
Inductive rounded : Type :=
| RNaN
| RInfinity (negative : bool)
| RNegZero
| RInteger (n : Z).

(** [Math.round(x)]: NaN, the infinities and the zeros are returned as
    they are, another value is rounded to the nearest integer, ties
    towards +infinity, and a negative value that rounds to zero gives
    [-0]. *)
Definition Math_round (x : float) : rounded :=
  match Prim2SF x with
  | S754_nan => RNaN
  | S754_infinity s => RInfinity s
  | S754_zero s => if s then RNegZero else RInteger 0
  | S754_finite s m e =>
      let n := roundHalfUp s m e in
      if (n =? 0)%Z && s then RNegZero else RInteger n
  end.

End JsNumber.
Import JsNumber.

(* ================================================================== *)
(** ** Run-time values *)

Inductive JsVal : Type :=
| JUndefined
| JNull
| JBool (b : bool)
| JNum (x : float)
| JStr (s : jsstring)
| JArr (elems : list JsVal)
| JObj (fields : list (jsstring * JsVal)).

Inductive exn : Type := NetworkError | SyntaxError | TypeError | URIError.

(** ToBoolean *)
Definition truthy (v : JsVal) : bool :=
  match v with
  | JUndefined | JNull => false
  | JBool b => b
  | JNum x => negb (PrimFloat.eqb x 0 || isNaN x)
  | JStr s => negb (JsString.eqb s [])
  | JArr _ | JObj _ => true
  end.

(** [a || b] *)
Definition js_or (a b : JsVal) : JsVal := if truthy a then a else b.

(** [v === 0] *)
Definition strictEqualsZero (v : JsVal) : bool :=
  match v with
  | JNum x => PrimFloat.eqb x 0
  | _ => false
  end.

(** The own property [name] of an object parsed from JSON. *)
Fixpoint ownProperty (fields : list (jsstring * JsVal)) (name : jsstring) : JsVal :=
  match fields with
  | [] => JUndefined
  | (k, v) :: rest => if JsString.eqb k name then v else ownProperty rest name
  end.

(** [v.name] for the property names the program uses, none of which is
    defined on a built-in prototype: reading from [undefined] or [null]
    throws, a primitive has no such property ([length] of a string apart),
    an array has [length]. *)
Definition getProperty (v : JsVal) (name : string) : exn + JsVal :=
  match v with
  | JUndefined | JNull => inl TypeError
  | JBool _ | JNum _ => inr JUndefined
  | JStr s =>
      inr (if String.eqb name "length" then JNum (JsNumber.ofNat (length s))
           else JUndefined)
  | JArr elems =>
      inr (if String.eqb name "length" then JNum (JsNumber.ofNat (length elems))
           else JUndefined)
  | JObj fields => inr (ownProperty fields (lit name))
  end.

(** [v[i]] for a non-negative integer [i]. *)
Definition getIndex (v : JsVal) (i : nat) : exn + JsVal :=
  match v with
  | JUndefined | JNull => inl TypeError
  | JBool _ | JNum _ => inr JUndefined
  | JStr s =>
      inr (match nth_error s i with Some c => JStr [c] | None => JUndefined end)
  | JArr elems =>
      inr (match nth_error elems i with Some x => x | None => JUndefined end)
  | JObj fields => inr (ownProperty fields (JsString.ofNat i))
  end.

(* ================================================================== *)
(** ** The component's state *)

(** [interface WeatherData]; the fields hold whatever the parsed response
    held, the interface being erased at run time. *)
Module WeatherData.
Record t : Type := make {
  city : JsVal;
  country : JsVal;
  temperature : JsVal;
  weatherCode : JsVal;
  windSpeed : JsVal;
  humidity : JsVal;
  precipitation : JsVal;
  isDay : JsVal
}.
End WeatherData.

(** The five [useState] cells of [App]. *)
Record AppState : Type := mkState {
  city : jsstring;
  weather : option WeatherData.t;
  error : jsstring;
  loading : bool;
  isCelsius : bool
}.

(** The initial values passed to [useState]. *)
Definition initialState : AppState :=
  {| city := []; weather := None; error := []; loading := false; isCelsius := true |}.

(** A template literal: its text chunks and the values substituted. The
    string is the concatenation of the chunks and of [ToString] of each
    value. *)
Inductive piece : Type :=
| Text (s : string)
| Subst (v : JsVal).

Definition template := list piece.

(** What a run of an event handler does, in order. *)
Inductive event : Type :=
| SetCity (s : jsstring)
| SetWeather (w : option WeatherData.t)
| SetError (msg : jsstring)
| SetLoading (b : bool)
| SetIsCelsius (b : bool)
| Fetch (url : template)
| ConsoleError (e : exn).

Definition applyEvent (st : AppState) (ev : event) : AppState :=
  match ev with
  | SetCity s =>
      {| city := s; weather := weather st; error := error st;
         loading := loading st; isCelsius := isCelsius st |}
  | SetWeather w =>
      {| city := city st; weather := w; error := error st;
         loading := loading st; isCelsius := isCelsius st |}
  | SetError msg =>
      {| city := city st; weather := weather st; error := msg;
         loading := loading st; isCelsius := isCelsius st |}
  | SetLoading b =>
      {| city := city st; weather := weather st; error := error st;
         loading := b; isCelsius := isCelsius st |}
  | SetIsCelsius b =>
      {| city := city st; weather := weather st; error := error st;
         loading := loading st; isCelsius := b |}
  | Fetch _ | ConsoleError _ => st
  end.

(** The state once every update of a run has been applied. *)
Definition applyEvents (st : AppState) (evs : list event) : AppState :=
  fold_left applyEvent evs st.

(* ================================================================== *)
(** ** Computations: effect log, early return, exceptions *)

Module Comp.

Inductive completion (A : Type) : Type :=
| Normal (a : A)
| Returned
| Thrown (e : exn).
Arguments Returned {A}.
Arguments Thrown {A} e.

Definition M (A : Type) : Type := (list event * completion A)%type.

Definition ret {A} (a : A) : M A := ([], Normal a).

Definition bind {A B} (m : M A) (k : A -> M B) : M B :=
  match m with
  | (log, Normal a) => let (log', r) := k a in (log ++ log', r)
  | (log, Returned) => (log, Returned)
  | (log, Thrown e) => (log, Thrown e)
  end.

Definition emit (ev : event) : M unit := ([ev], Normal tt).

(** [return;] *)
Definition return_ {A} : M A := ([], Returned).

Definition throw {A} (e : exn) : M A := ([], Thrown e).

Definition lift {A} (r : exn + A) : M A :=
  match r with
  | inl e => throw e
  | inr a => ret a
  end.

(** [try { body } catch (err) { handler err }] *)
Definition tryCatch {A} (body : M A) (handler : exn -> M A) : M A :=
  match body with
  | (log, Thrown e) => let (log', r) := handler e in (log ++ log', r)
  | _ => body
  end.

(** [... finally { fin }]: [fin] runs however the body ended, and the
    body's completion stands unless [fin] ends abruptly itself. *)
Definition finally {A} (body : M A) (fin : M unit) : M A :=
  let (log, r) := body in
  let (log', r') := fin in
  (log ++ log',
   match r' with
   | Normal _ => r
   | Returned => Returned
   | Thrown e => Thrown e
   end).

End Comp.
Import Comp.

Notation "x <- m ;; k" := (bind m (fun x => k))
  (at level 61, m at next level, right associativity).
Notation "m ;; k" := (bind m (fun _ => k))
  (at level 61, right associativity).

(* ================================================================== *)
(** ** The outside world *)

(** How an awaited [fetch(url)] ends: the promise rejects (no network), or
    it resolves to a response whose body [response.json()] parses
    ([Some]) or rejects as not being JSON ([None]). *)
Inductive outcome : Type :=
| Rejects
| Resolves (body : option JsVal).

Record Env : Type := mkEnv {
  fetch : template -> outcome;
  (** [new Date().getHours()] *)
  getHours : nat
}.

(** [await fetch(url)] *)
Definition awaitFetch (env : Env) (url : template) : M (option JsVal) :=
  emit (Fetch url) ;;
  match fetch env url with
  | Rejects => throw NetworkError
  | Resolves body => ret body
  end.

(** [await response.json()] *)
Definition awaitJson (body : option JsVal) : M JsVal :=
  match body with
  | Some v => ret v
  | None => throw SyntaxError
  end.

(* ================================================================== *)
(** ** [App] *)

Open Scope string_scope.
Open Scope list_scope.

(** The object literal [weatherCodes: Record<number, string>]. *)
Definition weatherCodes : list (Z * jsstring) :=
  [ (0, lit "Clear sky");
    (1, lit "Mainly clear");
    (2, lit "Partly cloudy");
    (3, lit "Overcast");
    (45, lit "Fog");
    (48, lit "Depositing rime fog");
    (51, lit "Light drizzle");
    (53, lit "Moderate drizzle");
    (55, lit "Dense drizzle");
    (61, lit "Slight rain");
    (63, lit "Moderate rain");
    (65, lit "Heavy rain");
    (71, lit "Slight snow fall");
    (73, lit "Moderate snow fall");
    (75, lit "Heavy snow fall");
    (80, lit "Slight rain showers");
    (81, lit "Moderate rain showers");
    (82, lit "Violent rain showers");
    (95, lit "Thunderstorm");
    (96, lit "Thunderstorm with hail");
    (99, lit "Thunderstorm with heavy hail") ]%Z.

Fixpoint lookupKey (table : list (Z * jsstring)) (k : Z) : option jsstring :=
  match table with
  | [] => None
  | (k', label) :: rest => if (k' =? k)%Z then Some label else lookupKey rest k
  end.

(** [table[code]]: [undefined] ([None]) unless [code] is one of the keys. *)
Definition lookupCode (table : list (Z * jsstring)) (code : float) : option jsstring :=
  match integerValue code with
  | Some k => lookupKey table k
  | None => None
  end.

(** [return weatherCodes[code] || "Unknown";] *)
Definition getWeatherCode (code : float) : jsstring :=
  match lookupCode weatherCodes code with
  | Some label => if truthy (JStr label) then label else lit "Unknown"
  | None => lit "Unknown"
  end.

(** [return isCelsius ? tempC : (tempC * 9/5) + 32;] with [isCelsius] read
    from the component's state. *)
Definition convertTemp (st : AppState) (tempC : float) : float :=
  if isCelsius st then tempC else (tempC * 9 / 5 + 32)%float.

Definition geocodingUrl (name : jsstring) : template :=
  [ Text "https://geocoding-api.open-meteo.com/v1/search?name=";
    Subst (JStr name) ].

Definition forecastUrl (latitude longitude : JsVal) : template :=
  [ Text "https://api.open-meteo.com/v1/forecast?latitude=";
    Subst latitude;
    Text "&longitude=";
    Subst longitude;
    Text "&current_weather=true&hourly=temperature_2m,relative_humidity_2m,precipitation_probability,wind_speed_10m&timezone=auto" ].

Definition msgEmptyInput : jsstring := lit "Please enter a city name".
Definition msgNotFound : jsstring := lit "City not found!".
Definition msgFetchError : jsstring := lit "Error fetching weather data. Please try again.".

(** [encodeURIComponent(city)] inside the template literal. *)
Definition encodeCity (s : jsstring) : M jsstring :=
  match encodeURIComponent s with
  | Some q => ret q
  | None => throw URIError
  end.

(** [weatherData.hourly.series[currentHour] || 0] *)
Definition currentValue (weatherData : JsVal) (series : string) (currentHour : nat)
  : M JsVal :=
  hourly <- lift (getProperty weatherData "hourly") ;;
  values <- lift (getProperty hourly series) ;;
  now <- lift (getIndex values currentHour) ;;
  ret (js_or now (JNum 0)).

(** The body of the [try] block of [getWeather]. *)
Definition lookup (env : Env) (st : AppState) : M unit :=
  q <- encodeCity (city st) ;;
  geoResponse <- awaitFetch env (geocodingUrl q) ;;
  geoData <- awaitJson geoResponse ;;
  results <- lift (getProperty geoData "results") ;;
  notFound <- (if negb (truthy results) then ret true
               else len <- lift (getProperty results "length") ;;
                    ret (strictEqualsZero len)) ;;
  if (notFound : bool) then
    emit (SetError msgNotFound) ;;
    emit (SetWeather None) ;;
    emit (SetLoading false) ;;
    return_
  else
    first <- lift (getIndex results 0) ;;
    latitude <- lift (getProperty first "latitude") ;;
    longitude <- lift (getProperty first "longitude") ;;
    name <- lift (getProperty first "name") ;;
    country <- lift (getProperty first "country") ;;
    weatherResponse <- awaitFetch env (forecastUrl latitude longitude) ;;
    weatherData <- awaitJson weatherResponse ;;
    currentWeather <- lift (getProperty weatherData "current_weather") ;;
    let currentHour := getHours env in
    humidity <- currentValue weatherData "relative_humidity_2m" currentHour ;;
    precipitation <- currentValue weatherData "precipitation_probability" currentHour ;;
    temperature <- lift (getProperty currentWeather "temperature") ;;
    weathercode <- lift (getProperty currentWeather "weathercode") ;;
    windspeed <- lift (getProperty currentWeather "windspeed") ;;
    is_day <- lift (getProperty currentWeather "is_day") ;;
    emit (SetWeather (Some
      {| WeatherData.city := name;
         WeatherData.country := country;
         WeatherData.temperature := temperature;
         WeatherData.weatherCode := weathercode;
         WeatherData.windSpeed := windspeed;
         WeatherData.humidity := humidity;
         WeatherData.precipitation := precipitation;
         WeatherData.isDay := is_day |})).

(** The [catch (err)] block. *)
Definition onError (err : exn) : M unit :=
  emit (ConsoleError err) ;;
  emit (SetError msgFetchError) ;;
  emit (SetWeather None).

(** [const getWeather = async (): Promise<void> => ...]; [city] is the
    value the closure captured. *)
Definition getWeather (env : Env) (st : AppState) : M unit :=
  if negb (truthy (JStr (trim (city st)))) then
    emit (SetError msgEmptyInput) ;;
    return_
  else
    emit (SetLoading true) ;;
    emit (SetError (lit "")) ;;
    finally (tryCatch (lookup env st) onError) (emit (SetLoading false)).

(** The state updates and requests of one call, in order. *)
Definition effects (env : Env) (st : AppState) : list event :=
  fst (getWeather env st).

(** The state after one call has run to its end. *)
Definition afterGetWeather (env : Env) (st : AppState) : AppState :=
  applyEvents st (effects env st).

(** What the user can do to the rendered component. *)
Inductive action : Type :=
| Change (value : jsstring)
| KeyPress (key : string)
| ClickGetWeather
| ClickCelsius
| ClickFahrenheit.

(** The event handlers of the JSX: [onChange], [handleKeyPress], the
    button's [onClick] (not delivered while [disabled={loading}]) and the
    two unit buttons. *)
Definition handle (env : Env) (st : AppState) (a : action) : list event :=
  match a with
  | Change value => [SetCity value]
  | KeyPress key => if String.eqb key "Enter" then effects env st else []
  | ClickGetWeather => if loading st then [] else effects env st
  | ClickCelsius => [SetIsCelsius true]
  | ClickFahrenheit => [SetIsCelsius false]
  end.

Definition step (env : Env) (st : AppState) (a : action) : AppState :=
  applyEvents st (handle env st a).

(** [{Math.round(convertTemp(weather.temperature))}] of the result panel,
    which is rendered when [weather] is set; [temperature] is a [number]
    by the interface, and nothing is modelled for another value. *)
Definition displayedTemperature (st : AppState) : option rounded :=
  match weather st with
  | Some w =>
      match WeatherData.temperature w with
      | JNum t => Some (Math_round (convertTemp st t))
      | _ => None
      end
  | None => None
  end.

(** [{getWeatherCode(weather.weatherCode)}] of the result panel. *)
Definition displayedCondition (st : AppState) : option jsstring :=
  match weather st with
  | Some w =>
      match WeatherData.weatherCode w with
      | JNum code => Some (getWeatherCode code)
      | _ => None
      end
  | None => None
  end.

(* ================================================================== *)
(** ** The interface description, for comparison *)

(** The condition-code table as the description of the external
    interfaces enumerates it, code and label. *)
Definition conditionCodeTable : list (Z * string) :=
  [ (0, "Clear sky"); (1, "Mainly clear"); (2, "Partly cloudy"); (3, "Overcast");
    (45, "Fog"); (48, "Depositing rime fog");
    (51, "Light drizzle"); (53, "Moderate drizzle"); (55, "Dense drizzle");
    (61, "Slight rain"); (63, "Moderate rain"); (65, "Heavy rain");
    (71, "Slight snow fall"); (73, "Moderate snow fall"); (75, "Heavy snow fall");
    (80, "Slight rain showers"); (81, "Moderate rain showers");
    (82, "Violent rain showers");
    (95, "Thunderstorm"); (96, "Thunderstorm with hail");
    (99, "Thunderstorm with heavy hail") ]%Z.

(** The real number that the finite binary64 value [(-1)^s * m * 2^e]
    stands for. *)
Definition exactValue (s : bool) (m : positive) (e : Z) : Q :=
  (inject_Z (if s then Z.neg m else Z.pos m) * 2 ^ e)%Q.

(* ================================================================== *)
(** ** Shapes of a run *)

(** How the [try] block can end: by the early [return] of the "not found"
    branch, by an exception, having logged requests only, or by storing a
    snapshot. *)
Inductive LookupRun (env : Env) (st : AppState) : M unit -> Prop :=
| Lookup_notFound q geoData results :
    encodeURIComponent (city st) = Some q ->
    fetch env (geocodingUrl q) = Resolves (Some geoData) ->
    getProperty geoData "results" = inr results ->
    (truthy results = false \/
     exists len, getProperty results "length" = inr len /\ strictEqualsZero len = true) ->
    LookupRun env st
      ([Fetch (geocodingUrl q); SetError msgNotFound; SetWeather None; SetLoading false],
       Returned)
| Lookup_thrown e requests :
    LookupRun env st (map Fetch requests, Thrown e)
| Lookup_stored q geoData results first latitude longitude
                weatherData currentWeather hourly humidities humidityNow
                precipitations precipitationNow w :
    encodeURIComponent (city st) = Some q ->
    fetch env (geocodingUrl q) = Resolves (Some geoData) ->
    getProperty geoData "results" = inr results ->
    truthy results = true ->
    getIndex results 0 = inr first ->
    getProperty first "latitude" = inr latitude ->
    getProperty first "longitude" = inr longitude ->
    getProperty first "name" = inr (WeatherData.city w) ->
    getProperty first "country" = inr (WeatherData.country w) ->
    fetch env (forecastUrl latitude longitude) = Resolves (Some weatherData) ->
    getProperty weatherData "current_weather" = inr currentWeather ->
    getProperty weatherData "hourly" = inr hourly ->
    getProperty hourly "relative_humidity_2m" = inr humidities ->
    getIndex humidities (getHours env) = inr humidityNow ->
    getProperty hourly "precipitation_probability" = inr precipitations ->
    getIndex precipitations (getHours env) = inr precipitationNow ->
    WeatherData.humidity w = js_or humidityNow (JNum 0) ->
    WeatherData.precipitation w = js_or precipitationNow (JNum 0) ->
    getProperty currentWeather "temperature" = inr (WeatherData.temperature w) ->
    getProperty currentWeather "weathercode" = inr (WeatherData.weatherCode w) ->
    getProperty currentWeather "windspeed" = inr (WeatherData.windSpeed w) ->
    getProperty currentWeather "is_day" = inr (WeatherData.isDay w) ->
    LookupRun env st
      ([Fetch (geocodingUrl q); Fetch (forecastUrl latitude longitude);
        SetWeather (Some w)],
       Normal tt).


(** The requests of a run, in order. *)
Definition requestsOf (evs : list event) : list template :=
  flat_map (fun ev => match ev with Fetch url => [url] | _ => [] end) evs.

(* ================================================================== *)
(** ** Sample responses and states *)

Module Sample.

Definition obj (fields : list (string * JsVal)) : JsVal :=
  JObj (map (fun kv => (lit (fst kv), snd kv)) fields).

Definition paris : JsVal :=
  obj [ ("latitude", JNum 48.875); ("longitude", JNum 2.375);
        ("name", JStr (lit "Paris")); ("country", JStr (lit "France")) ].

Definition candidates : JsVal := obj [ ("results", JArr [paris]) ].

Definition current : JsVal :=
  obj [ ("temperature", JNum 21.5); ("weathercode", JNum 3);
        ("windspeed", JNum 10.5); ("is_day", JNum 1) ].

(** Three hourly values only, the second one absent. *)
Definition forecast : JsVal :=
  obj [ ("current_weather", current);
        ("hourly",
         obj [ ("relative_humidity_2m", JArr [JNum 50; JNull; JNum 70]);
               ("precipitation_probability", JArr [JNum 0; JNum 5; JNum 10]) ]) ].

Definition forecastWithoutHourly : JsVal := obj [ ("current_weather", current) ].

Definition isGeocoding (url : template) : bool :=
  match url with
  | [Text _; Subst (JStr _)] => true
  | _ => false
  end.

(** Both services answer, at the given hour of the day. *)
Definition online (hour : nat) : Env :=
  {| fetch := fun url =>
       if isGeocoding url then Resolves (Some candidates)
       else Resolves (Some forecast);
     getHours := hour |}.

Definition offline : Env :=
  {| fetch := fun _ => Rejects; getHours := 9 |}.

(** The geocoding service answers, the forecast service sends a page
    that is not JSON. *)
Definition forecastDown : Env :=
  {| fetch := fun url =>
       if isGeocoding url then Resolves (Some candidates) else Resolves None;
     getHours := 9 |}.

Definition hourlyMissing : Env :=
  {| fetch := fun url =>
       if isGeocoding url then Resolves (Some candidates)
       else Resolves (Some forecastWithoutHourly);
     getHours := 9 |}.

(** The geocoding service knows no such place. *)
Definition unknownPlace (results : JsVal) : Env :=
  {| fetch := fun _ => Resolves (Some (obj [ ("results", results) ]));
     getHours := 9 |}.

Definition typed (s : jsstring) : AppState :=
  {| city := s; weather := None; error := []; loading := false; isCelsius := true |}.

Definition snapshot : WeatherData.t :=
  {| WeatherData.city := JStr (lit "Paris");
     WeatherData.country := JStr (lit "France");
     WeatherData.temperature := JNum 21.5;
     WeatherData.weatherCode := JNum 3;
     WeatherData.windSpeed := JNum 10.5;
     WeatherData.humidity := JNum 50;
     WeatherData.precipitation := JNum 0;
     WeatherData.isDay := JNum 1 |}.

(** Paris is on display and the input holds [s]. *)
Definition showing (s : jsstring) : AppState :=
  {| city := s; weather := Some snapshot; error := []; loading := false;
     isCelsius := true |}.

End Sample.



(* ================================================================== *)
(** ** The rest of the component *)



(** [{error && (<p>{error}</p>)}]: the line is there when [error] is a
    non-empty string. *)
Definition errorLine (st : AppState) : option jsstring :=
  if truthy (JStr (error st)) then Some (error st) else None.

(** [{weather && (<div>...</div>)}] *)
Definition panelShown (st : AppState) : bool :=
  match weather st with
  | Some _ => true
  | None => false
  end.

(** The component over a series of user actions, each handled to its end
    (responses included) before the next one, each in the world of its
    moment. *)
Definition session (st : AppState) (history : list (Env * action)) : AppState :=
  fold_left (fun s ea => step (fst ea) s (snd ea)) history st.

(** Setter calls on the two cells [getWeather] has no setter call for. *)
Definition touchesInput (ev : event) : bool :=
  match ev with
  | SetCity _ | SetIsCelsius _ => true
  | _ => false
  end.

(** A UTF-16 code unit. *)
Definition isCodeUnit (c : N) : bool := (c <? 0x10000)%N.

Definition isSurrogate (c : N) : bool := isLeadSurrogate c || isTrailSurrogate c.

(** What may stand in a query parameter as it is: an unreserved character
    or the percent sign of an escape. *)
Definition urlSafe (c : N) : bool := uriUnescaped c || (c =? 0x25)%N.


(** The "not found" test of [getWeather] on a parsed geocoding response:
    [!geoData.results || geoData.results.length === 0]. *)
Definition NoCandidates (results : JsVal) : Prop :=
  truthy results = false \/
  exists len, getProperty results "length" = inr len /\ strictEqualsZero len = true.


(** What holds of the state between any two user actions. *)
Definition Settled (st : AppState) : Prop :=
  loading st = false /\
  (error st = [] \/ error st = msgEmptyInput \/
   error st = msgNotFound \/ error st = msgFetchError) /\
  (error st = msgNotFound \/ error st = msgFetchError -> weather st = None).

(** The text of the last [onChange], the input being [typed] before. *)
Definition lastTyped (typed : jsstring) (history : list (Env * action)) : jsstring :=
  fold_left (fun c ea => match snd ea with Change v => v | _ => c end) history typed.

(** The unit of the last click on a unit button, [unit] before. *)
Definition lastUnit (unit : bool) (history : list (Env * action)) : bool :=
  fold_left (fun u ea => match snd ea with
                         | ClickCelsius => true
                         | ClickFahrenheit => false
                         | _ => u
                         end) history unit.
(* ================================================================== *)
(** * Properties *)

(** ** Strings *)

Lemma eqb_nil_iff (s : jsstring) : JsString.eqb s [] = true <-> s = [].
Proof.
  destruct s; simpl; split; intro H; try reflexivity; discriminate.
Qed.

Lemma trimStart_nil_iff (s : jsstring) :
  trimStart s = [] <-> forallb isWhiteSpace s = true.
Proof.
  induction s as [|c s IH]; simpl.
  - tauto.
  - destruct (isWhiteSpace c); simpl.
    + exact IH.
    + split; discriminate.
Qed.

Lemma trimStart_head (s : jsstring) c r :
  trimStart s = c :: r -> isWhiteSpace c = false.
Proof.
  induction s as [|d s IH]; simpl; [discriminate|].
  destruct (isWhiteSpace d) eqn:W; [exact IH|].
  intros [= -> _]. exact W.
Qed.

Lemma forallb_rev {A} (f : A -> bool) (l : list A) :
  forallb f (rev l) = true -> forallb f l = true.
Proof.
  rewrite !forallb_forall. intros H x Hx. apply H, in_rev. rewrite rev_involutive. exact Hx.
Qed.

(** [s.trim()] is empty exactly when [s] holds white space only. *)
Lemma trim_nil_iff (s : jsstring) :
  trim s = [] <-> forallb isWhiteSpace s = true.
Proof.
  unfold trim, trimEnd. split.
  - intro H.
    assert (H1 : trimStart (rev (trimStart s)) = []).
    { destruct (trimStart (rev (trimStart s))) as [|x l]; [reflexivity|].
      simpl in H. destruct (rev l); discriminate. }
    apply trimStart_nil_iff, forallb_rev in H1.
    apply trimStart_nil_iff.
    destruct (trimStart s) as [|c r] eqn:T; [reflexivity|].
    apply trimStart_head in T. simpl in H1. rewrite T in H1. discriminate.
  - intro H. apply trimStart_nil_iff in H. rewrite H. reflexivity.
Qed.

(** The test [!city.trim()]. *)
Lemma blank_test (s : jsstring) :
  negb (truthy (JStr (trim s))) = true <-> trim s = [].
Proof.
  simpl. rewrite negb_involutive. apply eqb_nil_iff.
Qed.

Lemma blank_test_false (s : jsstring) :
  negb (truthy (JStr (trim s))) = false <-> trim s <> [].
Proof.
  rewrite <- blank_test. destruct (negb (truthy (JStr (trim s)))); split; congruence.
Qed.

(** ** One run of [getWeather], case by case *)

Ltac thrown :=
  first [ apply (Lookup_thrown _ _ _ [])
        | apply (Lookup_thrown _ _ _ [_])
        | apply (Lookup_thrown _ _ _ [_; _]) ].

(** The next test the computation at the head is waiting for. *)
Ltac focus t :=
  lazymatch t with
  | (_, _) => fail
  | bind ?m _ => focus m
  | lift ?r => destruct r eqn:?
  | negb ?b => focus b
  | match ?x with _ => _ end => focus x
  | _ => destruct t eqn:?
  end.

Ltac run_step :=
  lazymatch goal with
  | |- LookupRun _ _ ?c => focus c
  end.

Lemma lookup_run (env : Env) (st : AppState) : LookupRun env st (lookup env st).
Proof.
  unfold lookup, currentValue, encodeCity, awaitFetch, awaitJson.
  repeat (run_step; cbn [bind lift ret throw emit return_ app negb]; try thrown).
  - eapply Lookup_notFound; eauto.
  - eapply Lookup_stored; cbn; eauto.
  - eapply Lookup_notFound; eauto.
Qed.

(** With a usable city name, [getWeather] is the [try] block between
    [setLoading(true); setError("")] and the [finally] block, with the
    [catch] block run on an exception. *)
Lemma getWeather_nonblank (env : Env) (st : AppState) :
  trim (city st) <> [] ->
  getWeather env st =
    match lookup env st with
    | (log, Thrown e) =>
        (SetLoading true :: SetError [] :: log ++
           [ConsoleError e; SetError msgFetchError; SetWeather None; SetLoading false],
         Normal tt)
    | (log, r) => (SetLoading true :: SetError [] :: log ++ [SetLoading false], r)
    end.
Proof.
  intro H. apply blank_test_false in H.
  unfold getWeather. rewrite H.
  destruct (lookup env st) as [log [[]| |e]]; cbn; try reflexivity.
  rewrite <- app_assoc. reflexivity.
Qed.

Lemma getWeather_blank (env : Env) (st : AppState) :
  trim (city st) = [] ->
  getWeather env st = ([SetError msgEmptyInput], Returned).
Proof.
  intro H. apply blank_test in H.
  unfold getWeather. rewrite H. reflexivity.
Qed.

Lemma trim_dec (s : jsstring) : {trim s = []} + {trim s <> []}.
Proof.
  destruct (trim s); [left; reflexivity | right; discriminate].
Qed.

(** The state after a list of updates ending in the given ones. *)
Lemma applyEvents_app (st : AppState) (l1 l2 : list event) :
  applyEvents st (l1 ++ l2) = applyEvents (applyEvents st l1) l2.
Proof.
  apply fold_left_app.
Qed.

Lemma applyEvents_fetches (st : AppState) (requests : list template) :
  applyEvents st (map Fetch requests) = st.
Proof.
  induction requests as [|u l IH]; [reflexivity|exact IH].
Qed.


Lemma applyEvents_around_requests (st : AppState) (requests : list template)
      (tail : list event) :
  applyEvents st (SetLoading true :: SetError [] :: map Fetch requests ++ tail) =
  applyEvents (applyEvents st [SetLoading true; SetError []]) tail.
Proof.
  change (SetLoading true :: SetError [] :: map Fetch requests ++ tail)
    with ([SetLoading true; SetError []] ++ map Fetch requests ++ tail).
  rewrite !applyEvents_app, applyEvents_fetches. reflexivity.
Qed.

(** ** Empty input *)



(** ** City not found *)




(** ** Exceptions *)



(** What becomes of the forecast request once the geocoding service has
    named a place. *)
Section AfterGeocoding.

Variables (env : Env) (st : AppState).
Variables (q : jsstring) (geoData results len first : JsVal).
Variables (latitude longitude name country : JsVal).

Hypothesis Hq : encodeURIComponent (city st) = Some q.
Hypothesis Hgeo : fetch env (geocodingUrl q) = Resolves (Some geoData).
Hypothesis Hres : getProperty geoData "results" = inr results.
Hypothesis Htruthy : truthy results = true.
Hypothesis Hlen : getProperty results "length" = inr len.
Hypothesis Hsome : strictEqualsZero len = false.
Hypothesis Hfirst : getIndex results 0 = inr first.
Hypothesis Hlat : getProperty first "latitude" = inr latitude.
Hypothesis Hlon : getProperty first "longitude" = inr longitude.
Hypothesis Hname : getProperty first "name" = inr name.
Hypothesis Hcountry : getProperty first "country" = inr country.

Ltac geocoded :=
  unfold lookup, encodeCity, awaitFetch, awaitJson;
  rewrite Hq; cbn [bind ret emit app]; rewrite Hgeo; cbn [bind ret emit app];
  rewrite Hres; cbn [bind lift ret emit app]; rewrite Htruthy; cbn [negb];
  rewrite Hlen; cbn [bind lift ret emit app]; rewrite Hsome;
  rewrite Hfirst; cbn [bind lift ret emit app];
  rewrite Hlat, Hlon, Hname, Hcountry; cbn [bind lift ret emit app].

Lemma forecast_rejected :
  fetch env (forecastUrl latitude longitude) = Rejects ->
  lookup env st =
    ([Fetch (geocodingUrl q); Fetch (forecastUrl latitude longitude)],
     Thrown NetworkError).
Proof.
  intro H. geocoded. rewrite H. reflexivity.
Qed.

Lemma forecast_not_json :
  fetch env (forecastUrl latitude longitude) = Resolves None ->
  lookup env st =
    ([Fetch (geocodingUrl q); Fetch (forecastUrl latitude longitude)],
     Thrown SyntaxError).
Proof.
  intro H. geocoded. rewrite H. reflexivity.
Qed.

Lemma forecast_null :
  fetch env (forecastUrl latitude longitude) = Resolves (Some JNull) ->
  lookup env st =
    ([Fetch (geocodingUrl q); Fetch (forecastUrl latitude longitude)],
     Thrown TypeError).
Proof.
  intro H. geocoded. rewrite H. reflexivity.
Qed.


End AfterGeocoding.

(** The three kinds of failure, at either request. *)
Example network_failure_at_geocoding :
  effects Sample.offline (Sample.typed (lit "Paris")) =
    [SetLoading true; SetError []; Fetch (geocodingUrl (lit "Paris"));
     ConsoleError NetworkError; SetError msgFetchError; SetWeather None;
     SetLoading false].
Proof. reflexivity. Qed.

Example not_json_at_forecast :
  effects Sample.forecastDown (Sample.typed (lit "Paris")) =
    [SetLoading true; SetError []; Fetch (geocodingUrl (lit "Paris"));
     Fetch (forecastUrl (JNum 48.875) (JNum 2.375));
     ConsoleError SyntaxError; SetError msgFetchError; SetWeather None;
     SetLoading false].
Proof. reflexivity. Qed.

Example unexpected_shape_at_geocoding :
  effects {| fetch := fun _ => Resolves (Some JNull); getHours := 9 |}
          (Sample.typed (lit "Paris")) =
    [SetLoading true; SetError []; Fetch (geocodingUrl (lit "Paris"));
     ConsoleError TypeError; SetError msgFetchError; SetWeather None;
     SetLoading false].
Proof. reflexivity. Qed.

Example lone_surrogate_in_city :
  effects (Sample.online 9) (Sample.typed [0xD83D%N]) =
    [SetLoading true; SetError []; ConsoleError URIError;
     SetError msgFetchError; SetWeather None; SetLoading false].
Proof. reflexivity. Qed.

(** ** What a failure does to the snapshot *)

(** C3, as stated, fails: with white space in the input and Paris on
    display, the call stores the message and the snapshot stays. *)
Lemma empty_input_keeps_the_snapshot :
  ~ (forall env st,
        trim (city st) = [] -> weather (afterGetWeather env st) = None).
Proof.
  intro H.
  specialize (H Sample.offline (Sample.showing (lit "   ")) eq_refl).
  discriminate H.
Qed.

(** C3, amended: with a usable city name, a call ends either with a
    snapshot stored and no message, or with one of the two failure
    messages ("City not found!", "Error fetching weather data. Please try
    again.") and the snapshot cleared; with an empty or white-space-only
    input it stores "Please enter a city name" and leaves the snapshot as
    it was. *)
Theorem lookup_failure_clears_the_snapshot (env : Env) (st : AppState) :
  (trim (city st) <> [] ->
     (error (afterGetWeather env st) = [] /\
      exists w, weather (afterGetWeather env st) = Some w) \/
     ((error (afterGetWeather env st) = msgNotFound \/
       error (afterGetWeather env st) = msgFetchError) /\
      weather (afterGetWeather env st) = None)) /\
  (trim (city st) = [] ->
     error (afterGetWeather env st) = msgEmptyInput /\
     weather (afterGetWeather env st) = weather st).
Proof.
  unfold afterGetWeather, effects. split; intro Hb.
  - rewrite (getWeather_nonblank env st Hb).
    destruct (lookup_run env st) as [q geoData results Hq Hgeo Hres Hnone
                                    | e requests | ].
    + right. split; [left|]; reflexivity.
    + right. cbn [fst]. rewrite applyEvents_around_requests.
      split; [right|]; reflexivity.
    + left. split; [reflexivity|]. exists w. reflexivity.
  - rewrite (getWeather_blank env st Hb). split; reflexivity.
Qed.

Lemma lookup_failure_clears_the_snapshot_witness :
  (error (afterGetWeather Sample.offline (Sample.showing (lit "Paris"))) = msgFetchError /\
   weather (afterGetWeather Sample.offline (Sample.showing (lit "Paris"))) = None) /\
  weather (afterGetWeather Sample.offline (Sample.showing (lit "   "))) =
    Some Sample.snapshot.
Proof.
  split.
  - destruct (lookup_failure_clears_the_snapshot Sample.offline
                (Sample.showing (lit "Paris"))) as [H _].
    destruct H as [[He _] | [_ Hw]].
    + discriminate.
    + discriminate He.
    + split; [reflexivity | exact Hw].
  - destruct (lookup_failure_clears_the_snapshot Sample.offline
                (Sample.showing (lit "   "))) as [_ H].
    destruct (H eq_refl) as [_ Hw]. exact Hw.
Defined.

(** ** A successful lookup *)

Lemma in_requests_not_setWeather (requests : list template) (tail : list event) w :
  In (SetWeather (Some w)) (map Fetch requests ++ tail) ->
  In (SetWeather (Some w)) tail.
Proof.
  intro H. apply in_app_or in H. destruct H as [H|H]; [|exact H].
  apply in_map_iff in H. destruct H as (u & Hu & _). discriminate Hu.
Qed.


(** The worked example of the description: "Paris" resolves to one
    candidate in France, the forecast has weather code 3. *)
Example paris_is_overcast :
  let st := afterGetWeather (Sample.online 0) (Sample.typed (lit "Paris")) in
  displayedCondition st = Some (lit "Overcast") /\
  option_map WeatherData.city (weather st) = Some (JStr (lit "Paris")) /\
  option_map WeatherData.country (weather st) = Some (JStr (lit "France")) /\
  error st = [] /\ loading st = false.
Proof. repeat split. Qed.


(** ** The values of the current hour *)

(** C4, as stated, fails: a forecast without [hourly] makes the read
    raise a [TypeError], and the call ends with the fetch error, not with
    a snapshot holding zeros. *)
Lemma missing_hourly_raises :
  getProperty Sample.forecastWithoutHourly "hourly" = inr JUndefined /\
  currentValue Sample.forecastWithoutHourly "relative_humidity_2m" 9 =
    ([], Thrown TypeError) /\
  effects Sample.hourlyMissing (Sample.typed (lit "Paris")) =
    [SetLoading true; SetError []; Fetch (geocodingUrl (lit "Paris"));
     Fetch (forecastUrl (JNum 48.875) (JNum 2.375));
     ConsoleError TypeError; SetError msgFetchError; SetWeather None;
     SetLoading false].
Proof.
  repeat split.
Qed.

(** C4, amended: the stored humidity and precipitation are
    [weatherData.hourly.series[currentHour] || 0] with [currentHour] the
    local hour of the clock; when the series is an array, an index past
    its end or an absent (or otherwise falsy) value at the index gives 0
    and nothing is raised; when [hourly] or the series is [undefined] or
    [null], the read raises a [TypeError]. *)
Theorem current_hour_values_default_to_zero (env : Env) (st : AppState) :
  (forall w,
     In (SetWeather (Some w)) (effects env st) ->
     exists latitude longitude weatherData,
       fetch env (forecastUrl latitude longitude) = Resolves (Some weatherData) /\
       currentValue weatherData "relative_humidity_2m" (getHours env) =
         ret (WeatherData.humidity w) /\
       currentValue weatherData "precipitation_probability" (getHours env) =
         ret (WeatherData.precipitation w)) /\
  (forall weatherData hourly series values hour,
     getProperty weatherData "hourly" = inr hourly ->
     getProperty hourly series = inr (JArr values) ->
     currentValue weatherData series hour =
       ret (match nth_error values hour with
            | Some v => if truthy v then v else JNum 0
            | None => JNum 0
            end)) /\
  (forall weatherData hourly series hour,
     getProperty weatherData "hourly" = inr hourly ->
     hourly = JUndefined \/ hourly = JNull \/
     getProperty hourly series = inr JUndefined \/
     getProperty hourly series = inr JNull ->
     currentValue weatherData series hour = throw TypeError).
Proof.
  split; [|split].
  - unfold effects. intros w Hin.
    destruct (trim_dec (city st)) as [Hb|Hb].
    { rewrite (getWeather_blank env st Hb) in Hin.
      destruct Hin as [Hin|[]]. discriminate Hin. }
    rewrite (getWeather_nonblank env st Hb) in Hin.
    destruct (lookup_run env st)
      as [ q geoData results Hq Hgeo Hres Hnone
         | e requests
         | q geoData results first latitude longitude weatherData currentWeather
           hourly humidities humidityNow precipitations precipitationNow w'
           Hq Hgeo Hres Htruthy Hfirst Hlat Hlon Hname Hcountry Hforecast Hcurrent
           Hhourly Hhum HhumNow Hprec HprecNow Hh Hp Htemp Hcode Hwind Hday ];
      cbn [fst snd app] in Hin.
    + repeat (destruct Hin as [Hin|Hin]; [discriminate Hin|]). destruct Hin.
    + do 2 (destruct Hin as [Hin|Hin]; [discriminate Hin|]).
      apply in_requests_not_setWeather in Hin.
      repeat (destruct Hin as [Hin|Hin]; [discriminate Hin|]). destruct Hin.
    + assert (w' = w) as ->.
      { repeat (destruct Hin as [Hin|Hin];
                [first [discriminate Hin | congruence]|]).
        destruct Hin. }
      exists latitude, longitude, weatherData. split; [exact Hforecast|].
      unfold currentValue. rewrite Hhourly. cbn [lift bind ret app].
      rewrite Hhum, Hprec. cbn [lift bind ret app].
      rewrite HhumNow, HprecNow, Hh, Hp. split; reflexivity.
  - intros weatherData hourly series values hour Hhourly Hseries.
    unfold currentValue. rewrite Hhourly. cbn [lift bind ret app].
    rewrite Hseries. cbn [lift bind ret app getIndex].
    destruct (nth_error values hour); reflexivity.
  - intros weatherData hourly series hour Hhourly H.
    unfold currentValue. rewrite Hhourly.
    destruct H as [-> | [-> | [H | H]]]; try reflexivity;
      cbn [lift bind ret app]; rewrite H; reflexivity.
Qed.

Lemma current_hour_values_default_to_zero_witness :
  (* hour 1: the value is [null]; hour 7: past the end of the series *)
  currentValue Sample.forecast "relative_humidity_2m" 1 = ret (JNum 0) /\
  currentValue Sample.forecast "relative_humidity_2m" 7 = ret (JNum 0) /\
  currentValue Sample.forecast "precipitation_probability" 1 = ret (JNum 5) /\
  currentValue Sample.forecastWithoutHourly "relative_humidity_2m" 1 = throw TypeError.
Proof.
  destruct (current_hour_values_default_to_zero (Sample.online 1)
              (Sample.typed (lit "Paris"))) as (_ & Harr & Hmissing).
  split; [|split; [|split]].
  - apply (Harr Sample.forecast _ "relative_humidity_2m" _ 1%nat eq_refl eq_refl).
  - apply (Harr Sample.forecast _ "relative_humidity_2m" _ 7%nat eq_refl eq_refl).
  - apply (Harr Sample.forecast _ "precipitation_probability" _ 1%nat eq_refl eq_refl).
  - apply (Hmissing Sample.forecastWithoutHourly JUndefined); [reflexivity|].
    left; reflexivity.
Defined.

(** ** Condition codes *)

Lemma lookupKey_absent (table : list (Z * jsstring)) (k : Z) :
  ~ In k (map fst table) -> lookupKey table k = None.
Proof.
  induction table as [|[k' label] rest IH]; simpl; intro H; [reflexivity|].
  destruct (Z.eqb_spec k' k) as [->|_].
  - exfalso. apply H. left. reflexivity.
  - apply IH. intro Hin. apply H. right. exact Hin.
Qed.

(** C2, as stated, fails on the number of entries: the table holds 21
    codes, not 23. *)
Lemma weatherCodes_has_not_23_entries : length weatherCodes <> 23%nat.
Proof.
  discriminate.
Qed.

(** C2, amended: the table of [getWeatherCode] is the enumeration of the
    interface description, entry for entry, 21 entries; a number equal to
    a code of the table resolves to the label listed for it, and any other
    number, integer or not, resolves to "Unknown". *)
Theorem getWeatherCode_follows_the_table :
  weatherCodes = map (fun kl => (fst kl, lit (snd kl))) conditionCodeTable /\
  length weatherCodes = 21%nat /\
  Forall (fun kl => getWeatherCode (JsNumber.ofNat (Z.to_nat (fst kl))) = snd kl)
         weatherCodes /\
  (forall code k label,
     integerValue code = Some k -> In (k, label) weatherCodes ->
     getWeatherCode code = label) /\
  (forall code,
     (forall k, integerValue code = Some k -> ~ In k (map fst weatherCodes)) ->
     getWeatherCode code = lit "Unknown").
Proof.
  split; [reflexivity|]. split; [reflexivity|]. split; [|split].
  - repeat (constructor; [vm_compute; reflexivity|]). constructor.
  - intros code k label Hk Hin.
    unfold getWeatherCode, lookupCode. rewrite Hk.
    simpl in Hin.
    repeat (destruct Hin as [Hin|Hin]; [injection Hin as <- <-; reflexivity|]).
    destruct Hin.
  - intros code Hout.
    unfold getWeatherCode, lookupCode.
    destruct (integerValue code) as [k|]; [|reflexivity].
    rewrite (lookupKey_absent weatherCodes k (Hout k eq_refl)). reflexivity.
Qed.

Lemma getWeatherCode_follows_the_table_witness :
  getWeatherCode 3 = lit "Overcast" /\
  getWeatherCode (-0) = lit "Clear sky" /\
  getWeatherCode 4 = lit "Unknown" /\
  getWeatherCode 2.5 = lit "Unknown" /\
  getWeatherCode nan = lit "Unknown".
Proof.
  destruct getWeatherCode_follows_the_table as (_ & _ & _ & Hin & Hout).
  split; [|split; [|split; [|split]]].
  - apply (Hin 3%float 3%Z); [reflexivity|]. simpl. do 3 right. left. reflexivity.
  - apply (Hin (-0)%float 0%Z); [reflexivity|]. simpl. left. reflexivity.
  - apply (Hout 4%float). intros k [= <-]. simpl. intuition discriminate.
  - apply (Hout 2.5%float). intros k Hk. discriminate Hk.
  - apply (Hout nan). intros k Hk. discriminate Hk.
Defined.

(** ** Units *)

Lemma Qpower_2_nonneg (e : Z) : (0 <= e)%Z -> (2 ^ e == inject_Z (2 ^ e))%Q.
Proof.
  intro H. rewrite Zpower_Qpower by exact H. reflexivity.
Qed.

Lemma roundHalfUp_nearest (s : bool) (m : positive) (e : Z) :
  (inject_Z (roundHalfUp s m e) - (1#2) <= exactValue s m e
   /\ exactValue s m e < inject_Z (roundHalfUp s m e) + (1#2))%Q.
Proof.
  unfold roundHalfUp, exactValue.
  set (sm := if s then Z.neg m else Z.pos m).
  destruct (Z.leb_spec 0 e) as [He|He].
  - rewrite (Qpower_2_nonneg He), <- inject_Z_mult.
    split; lra.
  - set (d := (2 ^ (- e))%Z).
    assert (Hd : (0 < d)%Z) by (apply Z.pow_pos_nonneg; lia).
    assert (Hp : (2 ^ e == / inject_Z d)%Q).
    { replace e with (- - e)%Z by lia. rewrite Qpower_opp.
      rewrite (@Qpower_2_nonneg (- e)) by lia. reflexivity. }
    rewrite Hp.
    set (n := ((2 * sm + d) / (2 * d))%Z).
    assert (Hlo : (2 * d * n <= 2 * sm + d)%Z) by (apply Z.mul_div_le; lia).
    assert (Hhi : (2 * sm + d < 2 * d * n + 2 * d)%Z).
    { pose proof (Z.mul_succ_div_gt (2 * sm + d) (2 * d)) as H.
      unfold n. lia. }
    clearbody n. clearbody d. clearbody sm.
    assert (HdQ : (0 < inject_Z d)%Q) by (change 0%Q with (inject_Z 0); rewrite <- Zlt_Qlt; exact Hd).
    split.
    + apply Qle_shift_div_l; [exact HdQ|].
      unfold Qle, Qminus, Qplus, Qopp, Qmult, inject_Z. cbn -[Z.mul Z.add]. lia.
    + apply Qlt_shift_div_r; [exact HdQ|].
      unfold Qlt, Qminus, Qplus, Qopp, Qmult, inject_Z. cbn -[Z.mul Z.add]. lia.
Qed.

(** C8: [convertTemp] depends on its argument and on the unit flag only;
    with the flag set it returns the Celsius value as it is, with the flag
    cleared it returns [tempC * 9 / 5 + 32], and the panel shows
    [Math.round] of the result: an integer within one half of the
    converted value, the upper one at a tie (or [-0] when a negative
    value rounds to zero). *)
Theorem convertTemp_converts_and_display_rounds (st : AppState) (tempC : float) :
  (isCelsius st = true -> convertTemp st tempC = tempC) /\
  (isCelsius st = false -> convertTemp st tempC = (tempC * 9 / 5 + 32)%float) /\
  (forall st', isCelsius st' = isCelsius st ->
               convertTemp st' tempC = convertTemp st tempC) /\
  (forall w,
     weather st = Some w -> WeatherData.temperature w = JNum tempC ->
     displayedTemperature st = Some (Math_round (convertTemp st tempC))) /\
  (forall s m e,
     Prim2SF (convertTemp st tempC) = S754_finite s m e ->
     exists n,
       (Math_round (convertTemp st tempC) = RInteger n \/
        (Math_round (convertTemp st tempC) = RNegZero /\ n = 0%Z)) /\
       (inject_Z n - (1#2) <= exactValue s m e /\
        exactValue s m e < inject_Z n + (1#2))%Q).
Proof.
  unfold convertTemp. repeat split.
  - intros ->. reflexivity.
  - intros ->. reflexivity.
  - intros st' ->. reflexivity.
  - intros w Hw Ht. unfold displayedTemperature, convertTemp. rewrite Hw, Ht. reflexivity.
  - intros s m e Hx. exists (roundHalfUp s m e). split.
    + unfold Math_round. rewrite Hx.
      destruct (Z.eqb_spec (roundHalfUp s m e) 0) as [->|_]; destruct s; cbn; auto.
    + apply roundHalfUp_nearest.
Qed.

Lemma convertTemp_converts_and_display_rounds_witness :
  convertTemp (Sample.showing []) 21.5 = 21.5%float /\
  convertTemp (applyEvent (Sample.showing []) (SetIsCelsius false)) 21.5
    = (21.5 * 9 / 5 + 32)%float /\
  displayedTemperature (Sample.showing []) = Some (RInteger 22).
Proof.
  destruct (convertTemp_converts_and_display_rounds (Sample.showing []) 21.5)
    as (Hc & _ & _ & Hshown & _).
  destruct (convertTemp_converts_and_display_rounds
              (applyEvent (Sample.showing []) (SetIsCelsius false)) 21.5)
    as (_ & Hf & _).
  split; [exact (Hc eq_refl)|]. split; [exact (Hf eq_refl)|].
  rewrite (Hshown Sample.snapshot eq_refl eq_refl). reflexivity.
Defined.

(** Some values of the conversion and of the rounding. *)
Example convertTemp_values :
  let fahrenheit := applyEvent initialState (SetIsCelsius false) in
  convertTemp fahrenheit 100 = 212%float /\
  convertTemp fahrenheit 0 = 32%float /\
  convertTemp fahrenheit (-40) = (-40)%float /\
  convertTemp initialState 100 = 100%float.
Proof. repeat split. Qed.

Example Math_round_values :
  Math_round 2.5 = RInteger 3 /\
  Math_round (-2.5) = RInteger (-2) /\
  Math_round 70.75 = RInteger 71 /\
  Math_round (-0.25) = RNegZero /\
  Math_round nan = RNaN.
Proof. repeat split. Qed.

(** C9: a click on a unit button updates [isCelsius] and nothing else: the
    city, the snapshot with its Celsius temperature, the message and the
    loading flag are as before, no request is made, and what a later
    lookup does is the same under either unit; the conversion happens
    where the panel is rendered, from the stored value. *)
Theorem unit_toggle_changes_only_the_unit
        (env : Env) (st : AppState) (celsius : bool) :
  let a := if celsius then ClickCelsius else ClickFahrenheit in
  handle env st a = [SetIsCelsius celsius] /\
  city (step env st a) = city st /\
  weather (step env st a) = weather st /\
  error (step env st a) = error st /\
  loading (step env st a) = loading st /\
  isCelsius (step env st a) = celsius /\
  getWeather env (step env st a) = getWeather env st /\
  (forall w t,
     weather st = Some w -> WeatherData.temperature w = JNum t ->
     displayedTemperature (step env st a) =
       Some (Math_round (if celsius then t else (t * 9 / 5 + 32)%float))).
Proof.
  destruct celsius; cbn; repeat split;
    intros w t Hw Ht; unfold displayedTemperature; cbn; rewrite Hw, Ht; reflexivity.
Qed.

Lemma unit_toggle_changes_only_the_unit_witness :
  displayedTemperature
    (step Sample.offline (Sample.showing []) ClickFahrenheit) = Some (RInteger 71) /\
  displayedTemperature
    (step Sample.offline (step Sample.offline (Sample.showing []) ClickFahrenheit)
          ClickCelsius) = Some (RInteger 22).
Proof.
  split.
  - destruct (unit_toggle_changes_only_the_unit Sample.offline (Sample.showing []) false)
      as (_ & _ & _ & _ & _ & _ & _ & H).
    rewrite (H Sample.snapshot 21.5%float eq_refl eq_refl). reflexivity.
  - destruct (unit_toggle_changes_only_the_unit Sample.offline
                (step Sample.offline (Sample.showing []) ClickFahrenheit) true)
      as (_ & _ & _ & _ & _ & _ & _ & H).
    rewrite (H Sample.snapshot 21.5%float eq_refl eq_refl). reflexivity.
Defined.

(** ** The geocoding request *)

Lemma bind_log_prefix {A B} (m : M A) (k : A -> M B) :
  exists rest, fst (bind m k) = fst m ++ rest.
Proof.
  destruct m as [log [a| |e]]; cbn.
  - destruct (k a) as [log' r]. exists log'. reflexivity.
  - exists []. now rewrite app_nil_r.
  - exists []. now rewrite app_nil_r.
Qed.

Lemma lookup_first_request (env : Env) (st : AppState) q :
  encodeURIComponent (city st) = Some q ->
  exists rest, fst (lookup env st) = Fetch (geocodingUrl q) :: rest.
Proof.
  intro Hq. unfold lookup, encodeCity. rewrite Hq. cbn [bind ret].
  match goal with
  | |- context [bind (awaitFetch ?e ?u) ?k] =>
      destruct (bind_log_prefix (awaitFetch e u) k) as [rest Hrest];
      destruct (bind (awaitFetch e u) k) as [log r]
  end.
  cbn [fst app] in *. subst log.
  unfold awaitFetch.
  match goal with
  | |- context [bind (emit ?ev) ?k] =>
      destruct (bind_log_prefix (emit ev) k) as [rest' Hrest'];
      rewrite Hrest'
  end.
  cbn. eexists. reflexivity.
Qed.

Lemma uriUnescaped_range (c : N) :
  uriUnescaped c = true -> (0x21 <= c <= 0x7E)%N.
Proof.
  unfold uriUnescaped.
  rewrite !orb_true_iff, !andb_true_iff, !N.leb_le, !N.eqb_eq. lia.
Qed.

Lemma isWhiteSpace_range (c : N) :
  isWhiteSpace c = true -> ((c <= 0x20 \/ 0xA0 <= c) /\ (c <= 0x3000 \/ c = 0xFEFF))%N.
Proof.
  unfold isWhiteSpace.
  rewrite !orb_true_iff, !andb_true_iff, !N.leb_le, !N.eqb_eq. lia.
Qed.


Lemma encodeURIComponent_cons (c : N) (rest : jsstring) :
  encodeURIComponent (c :: rest) =
    if uriUnescaped c then option_map (cons c) (encodeURIComponent rest)
    else if isLeadSurrogate c then
      match rest with
      | d :: rest' =>
          if isTrailSurrogate d
          then option_map
                 (app (escape ((c - 0xD800) * 0x400 + (d - 0xDC00) + 0x10000)%N))
                 (encodeURIComponent rest')
          else None
      | [] => None
      end
    else if isTrailSurrogate c then None
    else option_map (app (escape c)) (encodeURIComponent rest).
Proof.
  reflexivity.
Qed.



Lemma option_map_Some {A B} (f : A -> B) (o : option A) (b : B) :
  option_map f o = Some b -> exists a, o = Some a /\ b = f a.
Proof.
  destruct o as [a|]; simpl; [|discriminate].
  intros [= <-]. exists a. split; reflexivity.
Qed.





Lemma pair_induction (P : list N -> Prop) :
  P [] ->
  (forall c, P [c]) ->
  (forall c d l, P l -> P (d :: l) -> P (c :: d :: l)) ->
  forall l, P l.
Proof.
  intros H0 H1 H2 l.
  enough (P l /\ forall c, P (c :: l)) by tauto.
  induction l as [|d l [IHl IHd]]; split; auto.
Qed.





(* ================================================================== *)
(** * Further properties of [getWeather] *)

Lemma nonblank_iff (s : jsstring) :
  trim s <> [] <-> existsb (fun c => negb (isWhiteSpace c)) s = true.
Proof.
  rewrite trim_nil_iff. split.
  - intro H. induction s as [|c r IH]; cbn in *; [now elim H|].
    destruct (isWhiteSpace c); cbn in *; [apply IH; exact H | reflexivity].
  - intros H E. induction s as [|c r IH]; cbn in *; [discriminate|].
    destruct (isWhiteSpace c); cbn in *; [apply IH; assumption | discriminate].
Qed.

Lemma getWeather_city (env : Env) (st1 st2 : AppState) :
  city st1 = city st2 -> getWeather env st1 = getWeather env st2.
Proof.
  intro H. unfold getWeather, lookup. rewrite H. reflexivity.
Qed.

(** X1: a call with a city that holds anything but white space starts with
    [setLoading(true); setError("")], ends with [setLoading(false)] however
    the lookup went, and leaves the loading flag off. *)
Theorem started_lookup_brackets_loading (env : Env) (st : AppState) :
  existsb (fun c => negb (isWhiteSpace c)) (city st) = true ->
  (exists middle,
     effects env st = SetLoading true :: SetError [] :: middle ++ [SetLoading false]) /\
  loading (afterGetWeather env st) = false.
Proof.
  intro H. apply nonblank_iff in H.
  unfold afterGetWeather, effects. rewrite (getWeather_nonblank env st H).
  destruct (lookup env st) as [log [[]| |e]]; cbn [fst].
  - split; [exists log; reflexivity|].
    change (SetLoading true :: SetError [] :: log ++ [SetLoading false])
      with ((SetLoading true :: SetError [] :: log) ++ [SetLoading false]).
    rewrite applyEvents_app. reflexivity.
  - split; [exists log; reflexivity|].
    change (SetLoading true :: SetError [] :: log ++ [SetLoading false])
      with ((SetLoading true :: SetError [] :: log) ++ [SetLoading false]).
    rewrite applyEvents_app. reflexivity.
  - split.
    + exists (log ++ [ConsoleError e; SetError msgFetchError; SetWeather None]).
      rewrite <- app_assoc. reflexivity.
    + change (SetLoading true :: SetError [] :: log ++
                [ConsoleError e; SetError msgFetchError; SetWeather None;
                 SetLoading false])
        with ((SetLoading true :: SetError [] :: log) ++
                [ConsoleError e; SetError msgFetchError; SetWeather None;
                 SetLoading false]).
      rewrite applyEvents_app. reflexivity.
Qed.

Lemma started_lookup_brackets_loading_witness :
  existsb (fun c => negb (isWhiteSpace c)) (lit "  x ") = true /\
  loading (afterGetWeather Sample.offline
             {| city := lit "  x "; weather := None; error := [];
                loading := true; isCelsius := true |}) = false.
Proof.
  split; [reflexivity|].
  apply (started_lookup_brackets_loading Sample.offline
           {| city := lit "  x "; weather := None; error := [];
              loading := true; isCelsius := true |}).
  reflexivity.
Defined.

Lemma applyEvents_keeps_input (st : AppState) (evs : list event) :
  existsb touchesInput evs = false ->
  city (applyEvents st evs) = city st /\
  isCelsius (applyEvents st evs) = isCelsius st.
Proof.
  revert st. induction evs as [|ev evs IH]; intros st H; [split; reflexivity|].
  cbn in H. apply orb_false_iff in H. destruct H as [Hev Hevs].
  change (applyEvents st (ev :: evs)) with (applyEvents (applyEvent st ev) evs).
  destruct (IH (applyEvent st ev) Hevs) as [-> ->].
  destruct ev; try discriminate Hev; split; reflexivity.
Qed.

Lemma existsb_touchesInput_fetches (requests : list template) (tail : list event) :
  existsb touchesInput (map Fetch requests ++ tail) = existsb touchesInput tail.
Proof.
  induction requests as [|u l IH]; [reflexivity | exact IH].
Qed.

Lemma effects_keep_input (env : Env) (st : AppState) :
  existsb touchesInput (effects env st) = false.
Proof.
  unfold effects. destruct (trim_dec (city st)) as [Hb|Hb].
  - rewrite (getWeather_blank env st Hb). reflexivity.
  - rewrite (getWeather_nonblank env st Hb).
    destruct (lookup_run env st); cbn [fst]; try reflexivity.
    cbn [existsb touchesInput orb]. apply existsb_touchesInput_fetches.
Qed.

(** X2: no call of [getWeather] writes to the input text or to the unit
    preference: both are the same before and after, whatever the
    responses. *)
Theorem getWeather_keeps_city_and_unit (env : Env) (st : AppState) :
  existsb touchesInput (effects env st) = false /\
  city (afterGetWeather env st) = city st /\
  isCelsius (afterGetWeather env st) = isCelsius st.
Proof.
  split; [apply effects_keep_input|].
  apply applyEvents_keeps_input, effects_keep_input.
Qed.

(** The state a started lookup ends in: the snapshot and the message are
    fixed by the city and the responses, the loading flag is off, and the
    input text and the unit are those of the state the call began in. *)
Lemma after_started_lookup (env : Env) (st : AppState) :
  trim (city st) <> [] ->
  exists W E,
    forall st',
      city st' = city st ->
      afterGetWeather env st' =
        {| city := city st'; weather := W; error := E; loading := false;
           isCelsius := isCelsius st' |}.
Proof.
  intro Hb.
  assert (H : forall st', city st' = city st ->
              afterGetWeather env st' =
                applyEvents st'
                  (fst (match lookup env st with
                        | (log, Thrown e) =>
                            (SetLoading true :: SetError [] :: log ++
                               [ConsoleError e; SetError msgFetchError;
                                SetWeather None; SetLoading false], Normal tt)
                        | (log, r) =>
                            (SetLoading true :: SetError [] :: log ++
                               [SetLoading false], r)
                        end))).
  { intros st' Hc. unfold afterGetWeather, effects.
    rewrite (getWeather_city env st' st Hc), (getWeather_nonblank env st Hb).
    reflexivity. }
  destruct (lookup_run env st); eexists; eexists; intros st' Hc;
    rewrite (H st' Hc); cbn [fst];
    try rewrite applyEvents_around_requests;
    cbn -[msgNotFound msgFetchError]; reflexivity.
Qed.

(** X3: a started lookup replaces the result wholesale: the snapshot, the
    message and the loading flag it leaves are the same from any two
    states with the same city, whatever snapshot, message or flag they
    held, and so are its effects. *)
Theorem started_lookup_overwrites_the_result (env : Env) (st1 st2 : AppState) :
  city st1 = city st2 ->
  trim (city st1) <> [] ->
  effects env st1 = effects env st2 /\
  weather (afterGetWeather env st1) = weather (afterGetWeather env st2) /\
  error (afterGetWeather env st1) = error (afterGetWeather env st2) /\
  loading (afterGetWeather env st1) = loading (afterGetWeather env st2).
Proof.
  intros Hc Hb. split.
  - unfold effects. now rewrite (getWeather_city env st1 st2 Hc).
  - destruct (after_started_lookup env st1 Hb) as (W & E & H).
    rewrite (H st1 eq_refl), (H st2 (eq_sym Hc)). repeat split.
Qed.

Lemma started_lookup_overwrites_the_result_witness :
  weather (afterGetWeather (Sample.unknownPlace JNull) (Sample.showing (lit "Oz"))) =
  weather (afterGetWeather (Sample.unknownPlace JNull) (Sample.typed (lit "Oz"))).
Proof.
  destruct (started_lookup_overwrites_the_result (Sample.unknownPlace JNull)
              (Sample.showing (lit "Oz")) (Sample.typed (lit "Oz")))
    as (_ & H & _).
  - reflexivity.
  - discriminate.
  - exact H.
Defined.

(** X4: submitting the same city again against the same responses changes
    nothing: the state after two calls is the state after one. *)
Theorem getWeather_is_idempotent (env : Env) (st : AppState) :
  afterGetWeather env (afterGetWeather env st) = afterGetWeather env st.
Proof.
  destruct (getWeather_keeps_city_and_unit env st) as (_ & Hc & Hu).
  destruct (trim_dec (city st)) as [Hb|Hb].
  - unfold afterGetWeather at 1. unfold effects.
    rewrite (getWeather_city env _ st Hc), (getWeather_blank env st Hb).
    unfold afterGetWeather, effects. rewrite (getWeather_blank env st Hb).
    reflexivity.
  - destruct (after_started_lookup env st Hb) as (W & E & H).
    rewrite (H _ Hc), Hc, Hu. rewrite (H st eq_refl). reflexivity.
Qed.

(** X5: the unit buttons and a lookup do not interfere: toggling the unit
    and then looking up gives the state of looking up and then toggling,
    so the chosen unit survives every lookup. *)
Theorem unit_toggle_commutes_with_lookup (env : Env) (st : AppState) (celsius : bool) :
  let a := if celsius then ClickCelsius else ClickFahrenheit in
  afterGetWeather env (step env st a) = step env (afterGetWeather env st) a /\
  isCelsius (afterGetWeather env (step env st a)) = celsius.
Proof.
  assert (Hstep : forall s, step env s (if celsius then ClickCelsius else ClickFahrenheit)
                            = applyEvent s (SetIsCelsius celsius)).
  { intro s. destruct celsius; reflexivity. }
  cbv zeta. rewrite !Hstep.
  assert (Hc : city (applyEvent st (SetIsCelsius celsius)) = city st) by reflexivity.
  assert (E : afterGetWeather env (applyEvent st (SetIsCelsius celsius)) =
              applyEvent (afterGetWeather env st) (SetIsCelsius celsius)).
  { destruct (trim_dec (city st)) as [Hb|Hb].
    - unfold afterGetWeather, effects.
      rewrite (getWeather_city env _ st Hc), (getWeather_blank env st Hb).
      reflexivity.
    - destruct (after_started_lookup env st Hb) as (W & E & H).
      rewrite (H _ Hc), (H st eq_refl). reflexivity. }
  split; [exact E|]. rewrite E. reflexivity.
Qed.

(** ** Requests *)






(** ** The "not found" outcome *)

Lemma lookup_noCandidates (env : Env) (st : AppState) q geoData results :
  encodeURIComponent (city st) = Some q ->
  fetch env (geocodingUrl q) = Resolves (Some geoData) ->
  getProperty geoData "results" = inr results ->
  NoCandidates results ->
  lookup env st =
    ([Fetch (geocodingUrl q); SetError msgNotFound; SetWeather None; SetLoading false],
     Returned).
Proof.
  intros Hq Hgeo Hres Hnone.
  unfold lookup, encodeCity, awaitFetch, awaitJson.
  rewrite Hq. cbn [bind ret emit app]. rewrite Hgeo. cbn [bind ret emit app].
  rewrite Hres. cbn [bind lift ret emit app].
  destruct (truthy results) eqn:T; cbn [negb]; [|reflexivity].
  destruct Hnone as [Hf | (len & Hlen & Hzero)]; [congruence|].
  rewrite Hlen. cbn [bind lift ret emit app]. rewrite Hzero. reflexivity.
Qed.

(** X7: a call ends with the message "City not found!" exactly when the
    city is not blank, the geocoding response was parsed, and its
    [results] is falsy ([undefined], [null], [0], [""], [false]) or has a
    [length] strictly equal to 0. *)
Theorem city_not_found_exactly_when (env : Env) (st : AppState) :
  error (afterGetWeather env st) = msgNotFound <->
  trim (city st) <> [] /\
  exists q geoData results,
    encodeURIComponent (city st) = Some q /\
    fetch env (geocodingUrl q) = Resolves (Some geoData) /\
    getProperty geoData "results" = inr results /\
    NoCandidates results.
Proof.
  unfold afterGetWeather, effects. split.
  - intro H. destruct (trim_dec (city st)) as [Hb|Hb].
    { rewrite (getWeather_blank env st Hb) in H. compute in H. discriminate H. }
    split; [exact Hb|].
    rewrite (getWeather_nonblank env st Hb) in H.
    destruct (lookup_run env st)
      as [q geoData results Hq Hgeo Hres Hnone | e requests | ]; cbn [fst] in H.
    + exists q, geoData, results. repeat split; assumption.
    + rewrite applyEvents_around_requests in H. compute in H. discriminate H.
    + compute in H. discriminate H.
  - intros (Hb & q & geoData & results & Hq & Hgeo & Hres & Hnone).
    rewrite (getWeather_nonblank env st Hb),
            (lookup_noCandidates env st Hq Hgeo Hres Hnone).
    reflexivity.
Qed.

Lemma city_not_found_exactly_when_witness :
  error (afterGetWeather (Sample.unknownPlace JNull) (Sample.typed (lit "Oz")))
    = msgNotFound /\
  error (afterGetWeather
           (Sample.unknownPlace (Sample.obj [("length", JNum 0)]))
           (Sample.typed (lit "Oz")))
    = msgNotFound.
Proof.
  split.
  - apply (city_not_found_exactly_when (Sample.unknownPlace JNull)
             (Sample.typed (lit "Oz"))).
    split; [discriminate|].
    exists (lit "Oz"), (Sample.obj [("results", JNull)]), JNull.
    split; [reflexivity|]. split; [reflexivity|]. split; [reflexivity|].
    left. reflexivity.
  - apply (city_not_found_exactly_when
             (Sample.unknownPlace (Sample.obj [("length", JNum 0)]))
             (Sample.typed (lit "Oz"))).
    split; [discriminate|].
    exists (lit "Oz"),
           (Sample.obj [("results", Sample.obj [("length", JNum 0)])]),
           (Sample.obj [("length", JNum 0)]).
    split; [reflexivity|]. split; [reflexivity|]. split; [reflexivity|].
    right. exists (JNum 0). split; reflexivity.
Defined.

(** ** What reaches the geocoding URL *)

Ltac ndiv := zify; Z.to_euclidean_division_equations; lia.

Lemma first_request_of_started_lookup (env : Env) (st : AppState) q :
  trim (city st) <> [] ->
  encodeURIComponent (city st) = Some q ->
  exists rest,
    effects env st = SetLoading true :: SetError [] :: Fetch (geocodingUrl q) :: rest.
Proof.
  intros Hb Hq. unfold effects. rewrite (getWeather_nonblank env st Hb).
  destruct (lookup_first_request env st Hq) as [rest Hrest].
  destruct (lookup env st) as [log [[]| |e]]; cbn [fst] in *; subst log;
    eexists; reflexivity.
Qed.

(** X8: when the city holds an unpaired surrogate, [encodeURIComponent]
    throws inside the [try] block: the call makes no request at all and
    ends with the generic fetch error. *)
Theorem unencodable_city_makes_no_request (env : Env) (st : AppState) :
  trim (city st) <> [] ->
  encodeURIComponent (city st) = None ->
  effects env st =
    [SetLoading true; SetError []; ConsoleError URIError;
     SetError msgFetchError; SetWeather None; SetLoading false] /\
  requestsOf (effects env st) = [] /\
  error (afterGetWeather env st) = msgFetchError.
Proof.
  intros Hb Hq.
  assert (E : effects env st =
              [SetLoading true; SetError []; ConsoleError URIError;
               SetError msgFetchError; SetWeather None; SetLoading false]).
  { unfold effects. rewrite (getWeather_nonblank env st Hb).
    unfold lookup, encodeCity. rewrite Hq. reflexivity. }
  unfold afterGetWeather. rewrite E. repeat split.
Qed.

Lemma unencodable_city_makes_no_request_witness :
  encodeURIComponent (lit "A" ++ [0xDC00%N]) = None /\
  requestsOf (effects (Sample.online 9) (Sample.typed (lit "A" ++ [0xDC00%N]))) = [].
Proof.
  split; [reflexivity|].
  destruct (unencodable_city_makes_no_request (Sample.online 9)
              (Sample.typed (lit "A" ++ [0xDC00%N]))) as (_ & H & _).
  - discriminate.
  - reflexivity.
  - exact H.
Defined.

Lemma encodeURIComponent_without_surrogates (s : jsstring) :
  forallb (fun c => negb (isSurrogate c)) s = true ->
  exists q, encodeURIComponent s = Some q.
Proof.
  induction s as [|c r IH]; intro H; [exists []; reflexivity|].
  cbn [forallb] in H. apply andb_true_iff in H. destruct H as [Hc Hr].
  destruct (IH Hr) as [q0 H0].
  unfold isSurrogate in Hc. apply negb_true_iff, orb_false_iff in Hc.
  destruct Hc as [L T].
  rewrite encodeURIComponent_cons, L, T, H0.
  destruct (uriUnescaped c); eexists; reflexivity.
Qed.

(** X9: a city that is not blank and holds no surrogate code unit (any
    text of the Basic Multilingual Plane) is always encoded, and the call
    always issues the geocoding request for it, first of all requests. *)
Theorem city_without_surrogates_is_always_requested (env : Env) (st : AppState) :
  trim (city st) <> [] ->
  forallb (fun c => negb (isSurrogate c)) (city st) = true ->
  exists q rest,
    encodeURIComponent (city st) = Some q /\
    effects env st = SetLoading true :: SetError [] :: Fetch (geocodingUrl q) :: rest.
Proof.
  intros Hb Hs.
  destruct (encodeURIComponent_without_surrogates (city st) Hs) as [q Hq].
  destruct (first_request_of_started_lookup env st Hb Hq) as [rest Hrest].
  exists q, rest. split; assumption.
Qed.

Lemma city_without_surrogates_is_always_requested_witness :
  exists q rest,
    encodeURIComponent [0x6771; 0x4EAC]%N = Some q /\
    effects Sample.offline (Sample.typed [0x6771; 0x4EAC]%N) =
      SetLoading true :: SetError [] :: Fetch (geocodingUrl q) :: rest.
Proof.
  apply (city_without_surrogates_is_always_requested Sample.offline
           (Sample.typed [0x6771; 0x4EAC]%N)).
  - discriminate.
  - reflexivity.
Defined.

Lemma uriUnescaped_alnum (c : N) :
  (0x30 <= c <= 0x39 \/ 0x41 <= c <= 0x5A)%N -> uriUnescaped c = true.
Proof.
  unfold uriUnescaped.
  rewrite !orb_true_iff, !andb_true_iff, !N.leb_le, !N.eqb_eq. lia.
Qed.

Lemma hexDigit_unescaped (n : N) : (n < 16)%N -> uriUnescaped (hexDigit n) = true.
Proof.
  intro H. unfold hexDigit. apply uriUnescaped_alnum.
  destruct (N.ltb_spec n 10); lia.
Qed.

Lemma percent_urlSafe (b : N) : (b < 256)%N -> forallb urlSafe (percent b) = true.
Proof.
  intro H. unfold percent, urlSafe. cbn [forallb].
  rewrite !hexDigit_unescaped by ndiv. reflexivity.
Qed.

Lemma escape_urlSafe (cp : N) : (cp < 0x110000)%N -> forallb urlSafe (escape cp) = true.
Proof.
  intro H. unfold escape, utf8.
  destruct (N.ltb_spec cp 0x80); [|destruct (N.ltb_spec cp 0x800);
                                   [|destruct (N.ltb_spec cp 0x10000)]];
    cbn [map List.concat]; rewrite ?app_nil_r, ?forallb_app;
    rewrite !percent_urlSafe by ndiv; reflexivity.
Qed.

Lemma surrogate_pair_bound (c d : N) :
  isLeadSurrogate c = true -> isTrailSurrogate d = true ->
  ((c - 0xD800) * 0x400 + (d - 0xDC00) + 0x10000 < 0x110000)%N.
Proof.
  unfold isLeadSurrogate, isTrailSurrogate.
  rewrite !andb_true_iff, !N.leb_le. lia.
Qed.

Lemma encodeURIComponent_urlSafe (s : jsstring) :
  forallb isCodeUnit s = true ->
  forall q, encodeURIComponent s = Some q -> forallb urlSafe q = true.
Proof.
  pattern s. revert s.
  apply pair_induction; [|intros c|intros c d l IHl IHd]; intros Hs q H.
  - injection H as <-. reflexivity.
  - cbn [forallb] in Hs. apply andb_true_iff in Hs. destruct Hs as [Hc _].
    apply N.ltb_lt in Hc.
    rewrite encodeURIComponent_cons in H.
    destruct (uriUnescaped c) eqn:U.
    { injection H as <-. cbn. unfold urlSafe. rewrite U. reflexivity. }
    destruct (isLeadSurrogate c); [discriminate H|].
    destruct (isTrailSurrogate c); [discriminate H|].
    injection H as <-. rewrite app_nil_r. apply escape_urlSafe. lia.
  - cbn [forallb] in Hs. apply andb_true_iff in Hs. destruct Hs as [Hc Hdl].
    assert (Hl : forallb isCodeUnit l = true).
    { cbn [forallb] in Hdl. apply andb_true_iff in Hdl. apply Hdl. }
    apply N.ltb_lt in Hc.
    rewrite encodeURIComponent_cons in H.
    destruct (uriUnescaped c) eqn:U.
    { apply option_map_Some in H. destruct H as (q0 & H0 & ->).
      cbn [forallb]. unfold urlSafe at 1. rewrite U. exact (IHd Hdl q0 H0). }
    destruct (isLeadSurrogate c) eqn:L.
    { destruct (isTrailSurrogate d) eqn:T; [|discriminate H].
      apply option_map_Some in H. destruct H as (q0 & H0 & ->).
      rewrite forallb_app, (IHl Hl q0 H0), escape_urlSafe;
        [reflexivity | exact (surrogate_pair_bound c d L T)]. }
    destruct (isTrailSurrogate c); [discriminate H|].
    apply option_map_Some in H. destruct H as (q0 & H0 & ->).
    rewrite forallb_app, (IHd Hdl q0 H0), escape_urlSafe; [reflexivity | lia].
Qed.

(** X10: whatever is typed (any sequence of UTF-16 code units), the [name]
    parameter of the geocoding request holds unreserved characters and
    percent escapes only: no white space, [&], [=], [#], [?] or [/] of the
    input reaches the URL unescaped. *)
Theorem geocoding_name_is_url_safe (env : Env) (st : AppState) q :
  forallb isCodeUnit (city st) = true ->
  trim (city st) <> [] ->
  encodeURIComponent (city st) = Some q ->
  (exists rest,
     effects env st = SetLoading true :: SetError [] :: Fetch (geocodingUrl q) :: rest) /\
  forallb urlSafe q = true /\
  forallb (fun c => negb (isWhiteSpace c)) q = true /\
  forallb (fun c => negb (existsb (N.eqb c) (lit "&=#?/+"))) q = true.
Proof.
  intros Hs Hb Hq.
  pose proof (encodeURIComponent_urlSafe (city st) Hs Hq) as Hsafe.
  split; [exact (first_request_of_started_lookup env st Hb Hq)|].
  split; [exact Hsafe|].
  rewrite forallb_forall in Hsafe. split; apply forallb_forall; intros c Hc;
    specialize (Hsafe c Hc); unfold urlSafe in Hsafe;
    apply orb_true_iff in Hsafe.
  - destruct (isWhiteSpace c) eqn:W; [|reflexivity].
    apply isWhiteSpace_range in W.
    destruct Hsafe as [U|E];
      [apply uriUnescaped_range in U | apply N.eqb_eq in E]; lia.
  - destruct (existsb (N.eqb c) (lit "&=#?/+")) eqn:X; [|reflexivity].
    apply existsb_exists in X. destruct X as (x & Hx & Hcx).
    apply N.eqb_eq in Hcx. subst x.
    destruct Hsafe as [U|E].
    + cbn in Hx. repeat (destruct Hx as [<-|Hx]; [discriminate U|]). destruct Hx.
    + apply N.eqb_eq in E. subst c. cbn in Hx.
      repeat (destruct Hx as [Hx|Hx]; [discriminate Hx|]). destruct Hx.
Qed.

Lemma geocoding_name_is_url_safe_witness :
  forallb urlSafe (lit "New%20York%20%26%20Co") = true /\
  encodeURIComponent (lit "New York & Co") = Some (lit "New%20York%20%26%20Co").
Proof.
  split; [|reflexivity].
  destruct (geocoding_name_is_url_safe Sample.offline
              (Sample.typed (lit "New York & Co"))
              (q := lit "New%20York%20%26%20Co")) as (_ & H & _).
  - reflexivity.
  - discriminate.
  - reflexivity.
  - exact H.
Defined.




(** ** The stored snapshot *)

(** Everything that is known of a call that stored a snapshot. *)
Lemma stored_snapshot_inv (env : Env) (st : AppState) (w : WeatherData.t) :
  In (SetWeather (Some w)) (effects env st) ->
  LookupRun env st (lookup env st) /\
  exists log, lookup env st = (log ++ [SetWeather (Some w)], Normal tt).
Proof.
  unfold effects. intro Hin. split; [apply lookup_run|].
  destruct (trim_dec (city st)) as [Hb|Hb].
  { rewrite (getWeather_blank env st Hb) in Hin.
    destruct Hin as [Hin|[]]. discriminate Hin. }
  rewrite (getWeather_nonblank env st Hb) in Hin.
  destruct (lookup_run env st)
    as [ q geoData results Hq Hgeo Hres Hnone | e requests | ];
    cbn [fst snd app] in Hin.
  - repeat (destruct Hin as [Hin|Hin]; [discriminate Hin|]). destruct Hin.
  - do 2 (destruct Hin as [Hin|Hin]; [discriminate Hin|]).
    apply in_requests_not_setWeather in Hin.
    repeat (destruct Hin as [Hin|Hin]; [discriminate Hin|]). destruct Hin.
  - assert (w0 = w) as ->.
    { repeat (destruct Hin as [Hin|Hin];
              [first [discriminate Hin | congruence]|]).
      destruct Hin. }
    eexists [_; _]. reflexivity.
Qed.

Lemma stored_snapshot_run (env : Env) (st : AppState) (w : WeatherData.t) :
  In (SetWeather (Some w)) (effects env st) ->
  exists log, LookupRun env st (log ++ [SetWeather (Some w)], Normal tt).
Proof.
  intro Hin. destruct (stored_snapshot_inv env st w Hin) as (R & log & E).
  exists log. rewrite <- E. exact R.
Qed.

(** X12: the heading and the conditions of a stored snapshot come from the
    responses, not from the input: [city] and [country] are [name] and
    [country] of the first geocoding candidate, and [weatherCode],
    [windSpeed] and [isDay] are [weathercode], [windspeed] and [is_day] of
    the forecast's [current_weather], each as received. *)
Theorem stored_snapshot_comes_from_the_responses
        (env : Env) (st : AppState) (w : WeatherData.t) :
  In (SetWeather (Some w)) (effects env st) ->
  exists q geoData results first latitude longitude weatherData currentWeather,
    encodeURIComponent (city st) = Some q /\
    fetch env (geocodingUrl q) = Resolves (Some geoData) /\
    getProperty geoData "results" = inr results /\
    getIndex results 0 = inr first /\
    getProperty first "name" = inr (WeatherData.city w) /\
    getProperty first "country" = inr (WeatherData.country w) /\
    getProperty first "latitude" = inr latitude /\
    getProperty first "longitude" = inr longitude /\
    fetch env (forecastUrl latitude longitude) = Resolves (Some weatherData) /\
    getProperty weatherData "current_weather" = inr currentWeather /\
    getProperty currentWeather "weathercode" = inr (WeatherData.weatherCode w) /\
    getProperty currentWeather "windspeed" = inr (WeatherData.windSpeed w) /\
    getProperty currentWeather "is_day" = inr (WeatherData.isDay w).
Proof.
  intro Hin. destruct (stored_snapshot_run env st w Hin) as [log R].
  inversion R as [ | | q geoData results first latitude longitude weatherData
                       currentWeather hourly humidities humidityNow
                       precipitations precipitationNow w'
                       Hq Hgeo Hres Htruthy Hfirst Hlat Hlon Hname Hcountry
                       Hforecast Hcurrent Hhourly Hhum HhumNow Hprec HprecNow
                       Hh Hp Htemp Hcode Hwind Hday Hlog ].
  assert (w' = w) as ->.
  { destruct log as [|a [|b [|c log]]]; cbn in Hlog; try discriminate Hlog.
    - injection Hlog as _ _ Hw. congruence.
    - destruct log; discriminate Hlog. }
  exists q, geoData, results, first, latitude, longitude, weatherData, currentWeather.
  repeat (split; [assumption|]). assumption.
Qed.

Lemma stored_snapshot_comes_from_the_responses_witness :
  In (SetWeather (Some Sample.snapshot))
     (effects (Sample.online 0) (Sample.typed (lit "paris"))) /\
  exists first,
    getProperty first "name" = inr (JStr (lit "Paris")) /\
    getProperty first "country" = inr (JStr (lit "France")).
Proof.
  assert (Hin : In (SetWeather (Some Sample.snapshot))
                   (effects (Sample.online 0) (Sample.typed (lit "paris")))).
  { cbn. do 4 right. left. reflexivity. }
  split; [exact Hin|].
  destruct (stored_snapshot_comes_from_the_responses
              (Sample.online 0) (Sample.typed (lit "paris")) Sample.snapshot Hin)
    as (q & geoData & results & first & latitude & longitude & weatherData
        & currentWeather & _ & _ & _ & _ & Hname & Hcountry & _).
  exists first. split; [exact Hname | exact Hcountry].
Defined.

(** X13: the humidity and the precipitation of a stored snapshot are never
    absent: each is a truthy value of the hourly series or the number 0,
    so neither is [undefined], [null], [NaN], [false] or an empty string. *)
Theorem stored_hourly_values_are_never_absent
        (env : Env) (st : AppState) (w : WeatherData.t) :
  In (SetWeather (Some w)) (effects env st) ->
  (truthy (WeatherData.humidity w) = true \/ WeatherData.humidity w = JNum 0) /\
  (truthy (WeatherData.precipitation w) = true \/
   WeatherData.precipitation w = JNum 0) /\
  WeatherData.humidity w <> JUndefined /\ WeatherData.humidity w <> JNull /\
  WeatherData.precipitation w <> JUndefined /\ WeatherData.precipitation w <> JNull.
Proof.
  intro Hin. destruct (stored_snapshot_run env st w Hin) as [log R].
  inversion R as [ | | q geoData results first latitude longitude weatherData
                       currentWeather hourly humidities humidityNow
                       precipitations precipitationNow w'
                       Hq Hgeo Hres Htruthy Hfirst Hlat Hlon Hname Hcountry
                       Hforecast Hcurrent Hhourly Hhum HhumNow Hprec HprecNow
                       Hh Hp Htemp Hcode Hwind Hday Hlog ].
  assert (w' = w) as ->.
  { destruct log as [|a [|b [|c log]]]; cbn in Hlog; try discriminate Hlog.
    - injection Hlog as _ _ Hw. congruence.
    - destruct log; discriminate Hlog. }
  assert (Hor : forall x, truthy (js_or x (JNum 0)) = true \/ js_or x (JNum 0) = JNum 0).
  { intro x. unfold js_or. destruct (truthy x) eqn:T; [left; exact T | right; reflexivity]. }
  rewrite Hh, Hp.
  pose proof (Hor humidityNow) as H1. pose proof (Hor precipitationNow) as H2.
  repeat split; try assumption; intro E;
    first [ rewrite E in H1; destruct H1 as [H1|H1]; discriminate H1
          | rewrite E in H2; destruct H2 as [H2|H2]; discriminate H2 ].
Qed.

Lemma stored_hourly_values_are_never_absent_witness :
  (* at hour 1 the humidity of the sample forecast is [null] *)
  exists w,
    weather (afterGetWeather (Sample.online 1) (Sample.typed (lit "Paris"))) = Some w /\
    WeatherData.humidity w <> JNull.
Proof.
  destruct (weather (afterGetWeather (Sample.online 1) (Sample.typed (lit "Paris"))))
    as [w|] eqn:E; [|discriminate E].
  exists w. split; [reflexivity|].
  destruct (stored_hourly_values_are_never_absent
              (Sample.online 1) (Sample.typed (lit "Paris")) w)
    as (_ & _ & _ & H & _).
  - injection E as <-. cbn. do 4 right. left. reflexivity.
  - exact H.
Defined.

(** ** Condition labels *)

Lemma lookupKey_In (table : list (Z * jsstring)) (k : Z) (label : jsstring) :
  lookupKey table k = Some label -> In (k, label) table.
Proof.
  induction table as [|[k' l] rest IH]; cbn; [discriminate|].
  destruct (Z.eqb_spec k' k) as [->|_].
  - intros [= ->]. left. reflexivity.
  - intro H. right. exact (IH H).
Qed.

(** X14: [getWeatherCode] has a closed range: for every number, NaN and
    the infinities included, the label is "Unknown" or the label the table
    lists for that very code, and it is never the empty string (the
    condition line is never blank). *)
Theorem getWeatherCode_has_a_closed_range (code : float) :
  getWeatherCode code <> [] /\
  (getWeatherCode code = lit "Unknown" \/
   exists k, integerValue code = Some k /\ In (k, getWeatherCode code) weatherCodes).
Proof.
  unfold getWeatherCode, lookupCode.
  destruct (integerValue code) as [k|]; [|split; [discriminate | left; reflexivity]].
  destruct (lookupKey weatherCodes k) as [label|] eqn:L;
    [|split; [discriminate | left; reflexivity]].
  destruct (truthy (JStr label)) eqn:T; [|split; [discriminate | left; reflexivity]].
  split.
  - intros ->. discriminate T.
  - right. exists k. split; [reflexivity | exact (lookupKey_In _ _ L)].
Qed.

(** ** Whole degrees *)

Lemma roundHalfUp_of_integer (s : bool) (m : positive) (e : Z) :
  (e < 0)%Z ->
  (Z.pos m mod 2 ^ (- e) = 0)%Z ->
  roundHalfUp s m e = ((if s then Z.neg m else Z.pos m) / 2 ^ (- e))%Z.
Proof.
  intros He Hm. unfold roundHalfUp.
  destruct (Z.leb_spec 0 e) as [H|_]; [lia|].
  set (d := (2 ^ (- e))%Z) in *.
  assert (Hd : (0 < d)%Z) by (apply Z.pow_pos_nonneg; lia).
  assert (Hsm : exists k, (if s then Z.neg m else Z.pos m) = (k * d)%Z).
  { apply Z.mod_divide in Hm; [|lia]. destruct Hm as [k Hk].
    destruct s; [exists (- k)%Z | exists k]; lia. }
  destruct Hsm as [k ->]. clearbody d.
  rewrite Z.div_mul by lia.
  replace (2 * (k * d) + d)%Z with (d + k * (2 * d))%Z by lia.
  rewrite Z.div_add by lia.
  rewrite Z.div_small by lia. lia.
Qed.

Lemma Math_round_of_integer (x : float) (n : Z) :
  integerValue x = Some n -> n <> 0%Z -> Math_round x = RInteger n.
Proof.
  unfold integerValue, Math_round.
  destruct (Prim2SF x) as [s| s| |s m e]; try discriminate.
  - intros [= <-] H. now elim H.
  - destruct (Z.leb_spec 0 e) as [He|He].
    + intros [= <-] Hn. unfold roundHalfUp.
      destruct (Z.leb_spec 0 e) as [_|H]; [|lia].
      destruct (Z.eqb_spec ((if s then Z.neg m else Z.pos m) * 2 ^ e) 0) as [E|_];
        [now elim Hn | reflexivity].
    + destruct (Z.eqb_spec (Z.pos m mod 2 ^ (- e)) 0) as [Hm|_]; [|discriminate].
      intros [= <-] Hn. rewrite (roundHalfUp_of_integer s m He Hm).
      destruct (Z.eqb_spec ((if s then Z.neg m else Z.pos m) / 2 ^ (- e)) 0) as [E|_];
        [now elim Hn | reflexivity].
Qed.

(** X15: in Celsius mode a stored temperature that is a whole number of
    degrees is displayed as that number, unchanged by [convertTemp] and by
    [Math.round]. *)
Theorem whole_celsius_degrees_are_displayed_as_stored
        (st : AppState) (w : WeatherData.t) (t : float) (n : Z) :
  weather st = Some w ->
  WeatherData.temperature w = JNum t ->
  isCelsius st = true ->
  integerValue t = Some n ->
  n <> 0%Z ->
  displayedTemperature st = Some (RInteger n).
Proof.
  intros Hw Ht Hc Hn Hnz.
  unfold displayedTemperature, convertTemp. rewrite Hw, Ht, Hc.
  rewrite (Math_round_of_integer t Hn Hnz). reflexivity.
Qed.

Lemma whole_celsius_degrees_are_displayed_as_stored_witness :
  displayedTemperature
    (applyEvent (Sample.typed [])
       (SetWeather (Some
          {| WeatherData.city := JStr (lit "Oslo");
             WeatherData.country := JStr (lit "Norway");
             WeatherData.temperature := JNum (-7);
             WeatherData.weatherCode := JNum 71;
             WeatherData.windSpeed := JNum 12;
             WeatherData.humidity := JNum 80;
             WeatherData.precipitation := JNum 40;
             WeatherData.isDay := JNum 0 |})))
  = Some (RInteger (-7)).
Proof.
  eapply whole_celsius_degrees_are_displayed_as_stored with (t := (-7)%float).
  - reflexivity.
  - reflexivity.
  - reflexivity.
  - reflexivity.
  - discriminate.
Defined.

(** ** The component over a session *)

Lemma started_lookup_verdict (env : Env) (st : AppState) :
  trim (city st) <> [] ->
  loading (afterGetWeather env st) = false /\
  ((error (afterGetWeather env st) = [] /\
    exists w, weather (afterGetWeather env st) = Some w) \/
   ((error (afterGetWeather env st) = msgNotFound \/
     error (afterGetWeather env st) = msgFetchError) /\
    weather (afterGetWeather env st) = None)).
Proof.
  intro Hb. unfold afterGetWeather, effects.
  rewrite (getWeather_nonblank env st Hb).
  destruct (lookup_run env st) as [q geoData results Hq Hgeo Hres Hnone
                                  | e requests | ]; cbn [fst].
  - split; [reflexivity|]. right. split; [left|]; reflexivity.
  - rewrite applyEvents_around_requests.
    split; [reflexivity|]. right. split; [right|]; reflexivity.
  - split; [reflexivity|]. left. split; [reflexivity|]. eexists. reflexivity.
Qed.

Lemma afterGetWeather_settled (env : Env) (st : AppState) :
  Settled st -> Settled (afterGetWeather env st).
Proof.
  intros (Hl & He & Hw). destruct (trim_dec (city st)) as [Hb|Hb].
  - unfold afterGetWeather, effects. rewrite (getWeather_blank env st Hb).
    cbn -[msgEmptyInput msgNotFound msgFetchError].
    split; [exact Hl|]. split; [auto|].
    intros [H|H]; discriminate H.
  - destruct (started_lookup_verdict env st Hb) as (Hl' & [(E & w & W) | (E & W)]).
    + split; [exact Hl'|]. split; [auto|]. rewrite E. intros [H|H]; discriminate H.
    + split; [exact Hl'|]. split; [tauto|]. intros _. exact W.
Qed.

Lemma step_settled (env : Env) (st : AppState) (a : action) :
  Settled st -> Settled (step env st a).
Proof.
  intro H. unfold step, handle. destruct a as [value|key| | |].
  - exact H.
  - destruct (String.eqb key "Enter"); [apply afterGetWeather_settled|]; exact H.
  - destruct H as (Hl & H). rewrite Hl.
    apply afterGetWeather_settled. split; assumption.
  - exact H.
  - exact H.
Qed.

Lemma session_settled (history : list (Env * action)) (st : AppState) :
  Settled st -> Settled (session st history).
Proof.
  revert st. induction history as [|[env a] history IH]; intros st H; [exact H|].
  apply IH, step_settled, H.
Qed.


(** X17: in no state that a session reaches is a weather panel shown
    together with "City not found!" or with the fetch error: a failed
    lookup always clears the panel, and nothing but a successful lookup,
    which clears the message, brings it back. *)
Theorem session_never_shows_failure_with_panel (history : list (Env * action)) :
  let st := session initialState history in
  errorLine st = Some msgNotFound \/ errorLine st = Some msgFetchError ->
  weather st = None /\ panelShown st = false.
Proof.
  assert (H : Settled (session initialState history)).
  { apply session_settled. split; [reflexivity|]. split; [left; reflexivity|].
    intros [H|H]; discriminate H. }
  destruct H as (_ & _ & Hw). cbv zeta. unfold errorLine, panelShown.
  intro He.
  assert (E : error (session initialState history) = msgNotFound \/
              error (session initialState history) = msgFetchError).
  { destruct (truthy (JStr (error (session initialState history))));
      destruct He as [He|He]; try discriminate He; injection He as He; auto. }
  rewrite (Hw E). split; reflexivity.
Qed.

Lemma session_never_shows_failure_with_panel_witness :
  let history :=
    [ (Sample.online 0, Change (lit "Paris")); (Sample.online 0, KeyPress "Enter");
      (Sample.offline, ClickFahrenheit); (Sample.offline, ClickGetWeather) ] in
  errorLine (session initialState history) = Some msgFetchError /\
  panelShown (session initialState history) = false.
Proof.
  cbv zeta. split; [reflexivity|].
  apply (session_never_shows_failure_with_panel
           [ (Sample.online 0, Change (lit "Paris")); (Sample.online 0, KeyPress "Enter");
             (Sample.offline, ClickFahrenheit); (Sample.offline, ClickGetWeather) ]).
  right. reflexivity.
Defined.

Lemma step_keeps_input (env : Env) (st : AppState) (a : action) :
  city (step env st a) = match a with Change v => v | _ => city st end /\
  isCelsius (step env st a) =
    match a with
    | ClickCelsius => true
    | ClickFahrenheit => false
    | _ => isCelsius st
    end.
Proof.
  unfold step, handle. destruct a as [value|key| | |]; try (split; reflexivity).
  - destruct (String.eqb key "Enter"); [|split; reflexivity].
    apply applyEvents_keeps_input, effects_keep_input.
  - destruct (loading st); [split; reflexivity|].
    apply applyEvents_keeps_input, effects_keep_input.
Qed.

(** X18: over a whole session the input text is what was typed last and
    the unit is the one clicked last: no lookup, whether it succeeds or
    fails, and no key press ever changes either. *)
Theorem session_keeps_typed_text_and_unit
        (history : list (Env * action)) (st : AppState) :
  city (session st history) = lastTyped (city st) history /\
  isCelsius (session st history) = lastUnit (isCelsius st) history.
Proof.
  revert st. induction history as [|[env a] history IH]; intro st;
    [split; reflexivity|].
  cbn [session lastTyped lastUnit fold_left fst snd].
  destruct (step_keeps_input env st a) as [Hc Hu].
  destruct (IH (step env st a)) as [IHc IHu].
  unfold session, lastTyped, lastUnit in IHc, IHu.
  rewrite IHc, IHu, Hc, Hu. split; reflexivity.
Qed.

(** ** A lookup that succeeds *)


